(** * mmon_gcm.solving: weighted pFBA, irreversibility splitting and FVA folding

    A shallow embedding of [src/mmon_gcm/solving.py].  The module is glue code
    over the cobra/optlang modelling library: every solver-side operation
    (optimisation, variable objects, the worker pool) is a collaborator and
    enters the development through the [Cobra] interface below; everything
    the module itself computes (string matching on identifiers, dictionary
    updates, bound rewriting, the fold of split reactions, the final join) is
    translated function by function.

    Conventions.
    - Python floats are modelled as rationals [Q]; the module only compares
      them with constants, assigns them, adds them and takes one reciprocal.
    - A [dict] is an association list in insertion order with unique keys
      (order matters: the objective builder takes the first matching key).
    - A raised exception is the [Raise] result; [print] and [warnings.warn]
      are events appended to a log. *)

From stdpp Require Import gmap strings.
From Stdlib Require Import String Ascii List Bool QArith Qabs ZArith Lia Permutation.
From Stdlib Require Import DecimalString DecimalNat.
Import ListNotations.
Local Close Scope Q_scope.
Local Open Scope string_scope.
Local Open Scope list_scope.

(* ================================================================== *)
(** * Python primitives *)
(* ================================================================== *)

Module Py.

(** [sub in s] *)
Fixpoint contains (sub s : string) : bool :=
  String.prefix sub s ||
  match s with
  | EmptyString => false
  | String _ s' => contains sub s'
  end.

(** [s.replace(old, new)] for a non-empty [old] (every call site of the
    module passes a non-empty literal).  [skip] counts the characters of a
    match that are still to be dropped. *)
Fixpoint replace_from (old new : string) (skip : nat) (s : string) : string :=
  match s with
  | EmptyString => EmptyString
  | String c s' =>
      match skip with
      | S k => replace_from old new k s'
      | O =>
          if String.prefix old s
          then new +:+ replace_from old new (String.length old - 1) s'
          else String c (replace_from old new 0 s')
      end
  end.

Definition replace (old new s : string) : string := replace_from old new 0 s.

(** [s.split(sep)] for a one-character separator. *)
Fixpoint split (sep : ascii) (s : string) : list string :=
  match s with
  | EmptyString => [EmptyString]
  | String c s' =>
      if Ascii.eqb c sep then EmptyString :: split sep s'
      else match split sep s' with
           | h :: t => String c h :: t
           | [] => [String c EmptyString]
           end
  end.

(** [str(i)] for a non-negative integer. *)
Definition str (i : nat) : string := NilEmpty.string_of_uint (Nat.to_uint i).

(** [s[-1]]: [None] stands for the IndexError on the empty string. *)
Fixpoint last_char (s : string) : option string :=
  match s with
  | EmptyString => None
  | String c EmptyString => Some (String c EmptyString)
  | String _ s' => last_char s'
  end.

(** [s[:n]] *)
Definition slice_to (n : nat) (s : string) : string := String.substring 0 n s.

(** [range(1, n + 1)] *)
Definition range1 (n : nat) : list nat := seq 1 n.

Definition Qltb (x y : Q) : bool := negb (Qle_bool y x).

End Py.

(** Exceptions the module can raise or let through. *)
Inductive PyError : Type :=
| NameError (name : string)
| KeyError (key : string)
| IndexError
| ZeroDivisionError
| ValueError (msg : string)
| AttributeError (name : string)
| OptimizationError (msg : string).

Inductive Result (A : Type) : Type :=
| Ok (a : A)
| Raise (e : PyError).
Arguments Ok {A} a.
Arguments Raise {A} e.

Definition rbind {A B : Type} (r : Result A) (k : A -> Result B) : Result B :=
  match r with
  | Ok a => k a
  | Raise e => Raise e
  end.

(** A [for] loop whose body may raise: the first exception ends the loop. *)
Fixpoint for_each {A S : Type} (body : S -> A -> Result S) (l : list A) (s : S)
  : Result S :=
  match l with
  | [] => Ok s
  | x :: l' => rbind (body s x) (for_each body l')
  end.

(* ------------------------------------------------------------------ *)
(** ** Dictionaries in insertion order *)
(* ------------------------------------------------------------------ *)

Section Dict.
Context {K V : Type} (eqb : K -> K -> bool).

Fixpoint dict_get (d : list (K * V)) (k : K) : option V :=
  match d with
  | [] => None
  | (k', v) :: d' => if eqb k' k then Some v else dict_get d' k
  end.

(** [d[k] = v]: an existing key keeps its position. *)
Fixpoint dict_set (d : list (K * V)) (k : K) (v : V) : list (K * V) :=
  match d with
  | [] => [(k, v)]
  | (k', v') :: d' =>
      if eqb k' k then (k', v) :: d' else (k', v') :: dict_set d' k v
  end.

Definition dict_keys (d : list (K * V)) : list K := map fst d.

Definition dict_contains (d : list (K * V)) (k : K) : bool :=
  existsb (fun k' => eqb k' k) (dict_keys d).
End Dict.

(* ================================================================== *)
(** * Data model *)
(* ================================================================== *)

(** A solver variable; [var_text] is what [str(v)] returns. *)
Record Var : Type := mkVar {
  var_name : string;
  var_text : string
}.

Definition Var_eqb (a b : Var) : bool :=
  String.eqb (var_name a) (var_name b) && String.eqb (var_text a) (var_text b).

Record Reaction : Type := mkReaction {
  id : string;
  lower_bound : Q;
  upper_bound : Q;
  metabolites : list (string * Q)      (* metabolite id -> coefficient *)
}.

Record Objective : Type := mkObjective {
  obj_name : string;
  direction : string;
  linear_coefficients : list (Var * Q)
}.

Record Constraint : Type := mkConstraint {
  con_name : string;
  con_lb : option Q;
  con_ub : option Q;
  con_coefficients : list (Var * Q)
}.

(** Something registered with [add_cons_vars]. *)
Inductive ConsVar : Type :=
| CVar (v : Var) (lb ub : option Q)
| CCon (c : Constraint).

(** A series or a [dict] from reaction identifier to a number. *)
Definition Series : Type := list (string * Q).

(** A data frame by columns, or a [dict] of [dict]s: column name -> series. *)
Definition Table : Type := list (string * Series).

Record Model : Type := mkModel {
  reactions : list Reaction;
  solver_objective : Objective;
  cons_vars : list ConsVar;
  fva : option Table
}.

Definition Weightings : Type := list (string * Q).

Definition Solution : Type := list (string * Q).   (* the [fluxes] column *)

(** ** Reaction collection ([DictList]) *)

Definition get_by_id (rs : list Reaction) (i : string) : Result Reaction :=
  match find (fun r => String.eqb (id r) i) rs with
  | Some r => Ok r
  | None => Raise (KeyError i)
  end.

Definition has_id (rs : list Reaction) (i : string) : bool :=
  existsb (fun r => String.eqb (id r) i) rs.

(** Writing through a reference obtained with [get_by_id]. *)
Fixpoint update_by_id (rs : list Reaction) (i : string) (f : Reaction -> Reaction)
  : list Reaction :=
  match rs with
  | [] => []
  | r :: rs' =>
      if String.eqb (id r) i then f r :: rs' else r :: update_by_id rs' i f
  end.

(** [Reaction.get_coefficient(metabolite_id)] *)
Definition get_coefficient (r : Reaction) (met : string) : Result Q :=
  match dict_get String.eqb (metabolites r) met with
  | Some c => Ok c
  | None => Raise (KeyError met)
  end.

Definition set_lower_bound (r : Reaction) (v : Q) : Reaction :=
  {| id := id r; lower_bound := v; upper_bound := upper_bound r;
     metabolites := metabolites r |}.

Definition set_upper_bound (r : Reaction) (v : Q) : Reaction :=
  {| id := id r; lower_bound := lower_bound r; upper_bound := v;
     metabolites := metabolites r |}.

Definition set_id (r : Reaction) (i : string) : Reaction :=
  {| id := i; lower_bound := lower_bound r; upper_bound := upper_bound r;
     metabolites := metabolites r |}.

Definition set_reactions (m : Model) (rs : list Reaction) : Model :=
  {| reactions := rs; solver_objective := solver_objective m; cons_vars := cons_vars m;
     fva := fva m |}.

Definition set_objective (m : Model) (o : Objective) : Model :=
  {| reactions := reactions m; solver_objective := o; cons_vars := cons_vars m;
     fva := fva m |}.

Definition add_cons_vars (m : Model) (cs : list ConsVar) : Model :=
  {| reactions := reactions m; solver_objective := solver_objective m;
     cons_vars := cons_vars m ++ cs; fva := fva m |}.

Definition set_fva (m : Model) (t : Table) : Model :=
  {| reactions := reactions m; solver_objective := solver_objective m;
     cons_vars := cons_vars m; fva := Some t |}.

(** [Model.add_reaction]: a reaction whose identifier is already present is
    ignored, otherwise it is appended. *)
Definition add_reaction (m : Model) (r : Reaction) : Model :=
  if has_id (reactions m) (id r) then m
  else set_reactions m (reactions m ++ [r]).

(* ================================================================== *)
(** * Irreversibility splitter *)
(* ================================================================== *)

Definition reverse_suffix : string := "_reverse".

Definition rev2irrev_step (exp_model : Model) (RXN : Reaction) : Result Model :=
  rbind (get_by_id (reactions exp_model) (id RXN)) (fun rxn =>
    if Py.Qltb (lower_bound rxn) 0 then
      let rxn_reverse := set_id rxn (id rxn +:+ reverse_suffix) in
      let exp_model :=
        set_reactions exp_model
          (update_by_id (reactions exp_model) (id RXN)
             (fun r => set_lower_bound r 0)) in
      let rxn_reverse := set_upper_bound rxn_reverse 0 in
      Ok (add_reaction exp_model rxn_reverse)
    else Ok exp_model).

Definition rev2irrev (cobra_model : Model) : Result Model :=
  let exp_model := cobra_model in
  for_each rev2irrev_step (reactions cobra_model) exp_model.

(* ================================================================== *)
(** * Collaborators *)
(* ================================================================== *)

(** What [model.objective = value] may be given: a reaction identifier or a
    ready-made objective object. *)
Inductive ObjectiveArg : Type :=
| ObjReaction (rid : string)
| ObjObject (o : Objective).

(** The modelling library (cobra, optlang, the process pool), the sibling
    module [buildingediting] and the clock.  None of them is part of
    [solving.py]; the module's functions are stated for every implementation
    of this interface. *)
Class Cobra : Type := {
  (** [mmon_gcm.buildingediting.check_number_of_models] *)
  check_number_of_models : Model -> Result nat;
  (** [Reaction.forward_variable], [Reaction.reverse_variable] *)
  forward_variable : Reaction -> Var;
  reverse_variable : Reaction -> Var;
  (** [Reaction.flux] after a solve *)
  flux : Model -> Reaction -> Q;
  (** [model.problem.Variable(name, lb=.., ub=..)] *)
  problem_Variable : string -> option Q -> option Q -> Var;
  (** name given to an objective created without one *)
  fresh_objective_name : Model -> string;
  (** [cobra.util.solver.fix_objective_as_constraint] *)
  fix_objective_as_constraint : Model -> Q -> Result Model;
  (** [cobra.flux_analysis.parsimonious.add_pfba] *)
  cobra_add_pfba : Model -> Q -> Result Model;
  (** [Model.slim_optimize(error_value=None)]: the optimum, or an error *)
  slim_optimize : Model -> Result Q;
  (** [Model.optimize()] *)
  optimize : Model -> Model;
  (** [cobra.core.solution.get_solution]: the fluxes of the given reactions *)
  get_solution : Model -> list Reaction -> Solution;
  (** [cobra.flux_analysis.variability._fva_step] in a worker initialised
      with [_init_worker(model, loopless, sense)] *)
  _fva_step : Model -> bool -> string -> string -> Q;
  (** [cobra.flux_analysis.flux_variability_analysis] *)
  cobra_flux_variability_analysis : Model -> list string -> Z -> Result Table;
  (** [cobra.Configuration().processes] *)
  configuration_processes : Z;
  (** order in which [ProcessPool.imap_unordered] hands back the chunks *)
  imap_unordered : list (list (string * Q)) -> list (list (string * Q));
  imap_unordered_complete :
    forall chunks, Permutation (imap_unordered chunks) chunks;
  (** [datetime.fromtimestamp(time.time())] and the elapsed minutes, as text *)
  clock_text : nat -> string
}.

(* ================================================================== *)
(** * Effects: a log of caller-visible events, and exceptions *)
(* ================================================================== *)

Inductive Event : Type :=
| Print (text : string)                 (* print(...) *)
| Warn (message category : string)      (* warnings.warn(message, category) *)
| Solve (what : string).                (* one optimisation handed to the solver *)

Definition M (A : Type) : Type := list Event -> Result A * list Event.

Definition ret {A : Type} (a : A) : M A := fun log => (Ok a, log).

Definition bind {A B : Type} (c : M A) (k : A -> M B) : M B :=
  fun log =>
    match c log with
    | (Ok a, log') => k a log'
    | (Raise e, log') => (Raise e, log')
    end.

Definition raise {A : Type} (e : PyError) : M A := fun log => (Raise e, log).

Definition lift {A : Type} (r : Result A) : M A := fun log => (r, log).

Definition emit (e : Event) : M unit := fun log => (Ok tt, log ++ [e]).

Notation "'let*' x ':=' c 'in' k" := (bind c (fun x => k))
  (at level 10, x name, c at level 200, k at level 200).

Fixpoint mfor_each {A S : Type} (body : S -> A -> M S) (l : list A) (s : S) : M S :=
  match l with
  | [] => ret s
  | x :: l' => let* s' := body s x in mfor_each body l' s'
  end.

Definition print (text : string) : M unit := emit (Print text).
Definition warn (message category : string) : M unit := emit (Warn message category).

(** Names bound at module level in [solving.py]: the imports, the functions
    and [__all__]. *)
Definition module_globals : list string :=
  [ "__all__"; "chain"; "np"; "pd"; "flux_analysis"; "get_solution"; "sutil";
    "check_number_of_models"; "Zero"; "_init_worker"; "_fva_step"; "logging";
    "TYPE_CHECKING"; "List"; "Optional"; "Set"; "Tuple"; "Union"; "warn";
    "ProcessPool"; "time"; "datetime";
    "pfba_Weighted"; "add_pfba_Weighted"; "get_weightings";
    "flux_variability_analysis"; "pFBA_FVA_run"; "get_sum_of_fluxes";
    "rev2irrev"; "check_fba_fva_run"; "get_pfba_fva_solution" ].

(** Builtins the module calls. *)
Definition builtins : list string :=
  [ "abs"; "dict"; "len"; "map"; "min"; "print"; "range"; "set"; "str" ].

(** Reading a free name inside a function: module globals, then builtins,
    else NameError. *)
Definition load_global (name : string) : M unit :=
  if existsb (String.eqb name) (module_globals ++ builtins) then ret tt
  else raise (NameError name).

(* ================================================================== *)
(** * Weighting generator *)
(* ================================================================== *)

Definition py_div (x y : Q) : Result Q :=
  if Qeq_bool y 0 then Raise ZeroDivisionError else Ok (x / y)%Q.

(** The accounting pattern of [get_weightings]. *)
Definition is_accounting (i : string) : bool :=
  Py.contains "constraint" i || Py.contains "overall" i || Py.contains "sum" i
  || String.eqb (Py.slice_to 2 i) "EX".

(** Body of the inner loop, for phase [i]. *)
Definition get_weightings_reaction (i : nat) (length_of_phase : Q)
    (weightings : Weightings) (reaction : Reaction) : Result Weightings :=
  if is_accounting (id reaction) then
    Ok (dict_set String.eqb weightings (id reaction) 0%Q)
  else
    match Py.last_char (id reaction) with
    | None => Raise IndexError
    | Some c =>
        if String.eqb c (Py.str i)
        then Ok (dict_set String.eqb weightings (id reaction) length_of_phase)
        else Ok weightings
    end.

Definition phase_length (model : Model) (i : nat) : Result Q :=
  rbind (get_by_id (reactions model) ("SUCROSE_v_gc_Linker_" +:+ Py.str i))
    (fun linker =>
  rbind (get_coefficient linker ("SUCROSE_v_gc_" +:+ Py.str i)) (fun c =>
  py_div 1 (- c))).

(** Body of the outer loop. *)
Definition get_weightings_phase (model : Model) (weightings : Weightings) (i : nat)
  : Result Weightings :=
  rbind (phase_length model i) (fun length_of_phase =>
  for_each (get_weightings_reaction i length_of_phase) (reactions model) weightings).

Definition get_weightings `{Cobra} (model : Model) : Result Weightings :=
  rbind (check_number_of_models model) (fun number_of_models =>
  for_each (get_weightings_phase model) (Py.range1 number_of_models) []).

(* ================================================================== *)
(** * Weighted objective builder *)
(* ================================================================== *)

Definition pfba_objective_name : string := "_pfba_objective".

(** [model.objective = value]: an objective object is installed as it is; a
    reaction identifier becomes a new, freshly named objective over that
    reaction with the direction of the current one. *)
Definition assign_objective `{Cobra} (model : Model) (value : ObjectiveArg)
  : Result Model :=
  match value with
  | ObjObject o => Ok (set_objective model o)
  | ObjReaction rid =>
      match get_by_id (reactions model) rid with
      | Raise _ => Raise (ValueError "invalid objective")
      | Ok r =>
          Ok (set_objective model
                {| obj_name := fresh_objective_name model;
                   direction := direction (solver_objective model);
                   linear_coefficients :=
                     [(forward_variable r, 1); (reverse_variable r, - (1))]%Q |})
      end
  end.

(** [w = str(v).split("=")[1].replace(" ", "").replace("<", "")] *)
Definition variable_label (v : Var) : Result string :=
  match nth_error (Py.split "="%char (var_text v)) 1 with
  | None => Raise IndexError
  | Some part => Ok (Py.replace "<" "" (Py.replace " " "" part))
  end.

(** The first key, in dictionary order, that occurs in [w]. *)
Definition first_matching_key (weightings : Weightings) (w : string) : option string :=
  find (fun rxn => Py.contains rxn w) (dict_keys weightings).

Definition not_found_notice (w : string) : string :=
  "Weightings for reaction " +:+ w +:+ " not found, so assuming weighting = 1".

(** The rule in the words of the specification: the weight paired with the
    first key, in dictionary order, that occurs in the text. *)
Fixpoint first_match_weight (weightings : Weightings) (w : string) : option Q :=
  match weightings with
  | [] => None
  | (rxn, x) :: rest =>
      if Py.contains rxn w then Some x else first_match_weight rest w
  end.

(** Body of the loop over the flux variables. *)
Definition weight_variable (weightings : Weightings) (tempDict : list (Var * Q))
    (v : Var) : M (list (Var * Q)) :=
  let* w := lift (variable_label v) in
  match first_matching_key weightings w with
  | Some rxn =>
      match dict_get String.eqb weightings rxn with
      | Some x => ret (dict_set Var_eqb tempDict v x)
      | None => raise (KeyError rxn)
      end
  | None =>
      let* _ := print (not_found_notice w) in
      ret (dict_set Var_eqb tempDict v 1%Q)
  end.

Definition flux_variables `{Cobra} (model : Model) : list Var :=
  flat_map (fun rxn => [forward_variable rxn; reverse_variable rxn]) (reactions model).

(** [if weightings == None: weightings = get_weightings(model)] *)
Definition resolve_weightings `{Cobra} (model : Model) (weightings : option Weightings)
  : Result Weightings :=
  match weightings with
  | None => get_weightings model
  | Some w => Ok w
  end.

(** [if objective is not None: model.objective = objective] *)
Definition install_objective `{Cobra} (model : Model) (objective : option ObjectiveArg)
  : Result Model :=
  match objective with
  | Some o => assign_objective model o
  | None => Ok model
  end.

Definition add_pfba_Weighted `{Cobra} (model : Model) (weightings : option Weightings)
    (objective : option ObjectiveArg) (fraction_of_optimum : Q) : M Model :=
  let* weightings := lift (resolve_weightings model weightings) in
  let* model := lift (install_objective model objective) in
  if String.eqb (obj_name (solver_objective model)) pfba_objective_name then
    raise (ValueError "The model already has a pFBA objective.")
  else
    let* model := lift (fix_objective_as_constraint model fraction_of_optimum) in
    let variables := flux_variables model in
    let model :=
      set_objective model
        {| obj_name := pfba_objective_name; direction := "min";
           linear_coefficients := [] |} in
    let* tempDict := mfor_each (weight_variable weightings) variables [] in
    ret (set_objective model
           {| obj_name := obj_name (solver_objective model);
              direction := direction (solver_objective model);
              linear_coefficients := tempDict |}).

(** [pfba_Weighted]: the builder runs on a copy inside a [with] block, whose
    exit undoes the objective and constraint changes; the copy and the
    solution are returned. *)
Definition pfba_Weighted `{Cobra} (model : Model) (weightings : option Weightings)
    (fraction_of_optimum : Q) (objective : option ObjectiveArg)
    (reactions_arg : option (list string)) : M (Model * Solution) :=
  let* rs := match reactions_arg with
        | None => ret (reactions model)
        | Some l => lift (for_each (fun acc i =>
                            rbind (get_by_id (reactions model) i)
                                  (fun r => Ok (acc ++ [r]))) l [])
        end in
  let tempmodel := model in
  let* m := add_pfba_Weighted tempmodel weightings objective fraction_of_optimum in
  let* _ := emit (Solve "pfba") in
  let* _ := lift (slim_optimize m) in
  let solution := get_solution m rs in
  ret (tempmodel, solution).

(* ================================================================== *)
(** * Variability driver *)
(* ================================================================== *)

(** [series.at[label] = value]: every row carrying the label is written; a
    label that is not in the index enlarges the series. *)
Definition series_at_set (s : Series) (label : string) (value : Q) : Series :=
  if dict_contains String.eqb s label
  then map (fun kv => if String.eqb (fst kv) label then (fst kv, value) else kv) s
  else s ++ [(label, value)].

(** [frame.at[label, column] = value] *)
Definition frame_at_set (t : Table) (label column : string) (value : Q) : Table :=
  map (fun cs => if String.eqb (fst cs) column
                 then (fst cs, series_at_set (snd cs) label value) else cs) t.

(** The work list cut into pieces of [size] items, the last one shorter. *)
Fixpoint chunks_upto {A : Type} (fuel size : nat) (l : list A) : list (list A) :=
  match fuel with
  | O => []
  | S fuel' =>
      match l with
      | [] => []
      | _ :: _ => firstn size l :: chunks_upto fuel' size (skipn size l)
      end
  end.

Definition chunks {A : Type} (size : nat) (l : list A) : list (list A) :=
  chunks_upto (length l) size l.

(** [model.reactions.get_by_any(reaction_list)], identifiers only. *)
Definition get_by_any (model : Model) (l : list string) : Result (list Reaction) :=
  for_each (fun acc i => rbind (get_by_id (reactions model) i)
                               (fun r => Ok (acc ++ [r]))) l [].

(** One worker result: the reaction identifier and the optimum found. *)
Definition fva_result_of `{Cobra} (model : Model) (loopless : bool) (sense : string)
    (rxn_id : string) : string * Q :=
  (rxn_id, _fva_step model loopless sense rxn_id).

(** The body of [for what in ("minimum", "maximum")]. *)
Definition fva_direction `{Cobra} (model : Model) (loopless : bool) (processes : Z)
    (reaction_ids : list string) (fva_result : Table) (what : string) : M Table :=
  let sense := Py.slice_to 3 what in
  if (1 <? processes)%Z then
    let chunk_size := Z.to_nat (Z.of_nat (length reaction_ids) / processes) in
    if Nat.eqb chunk_size 0 then raise (ValueError "Chunksize must be 1+")
    else
      let arrived :=
        concat (imap_unordered
                  (chunks chunk_size
                     (map (fva_result_of model loopless sense) reaction_ids))) in
      mfor_each (fun t r =>
                   let* _ := emit (Solve (fst r)) in
                   let* _ := print (fst r) in
                   ret (frame_at_set t (fst r) what (snd r)))
                arrived fva_result
  else
    mfor_each (fun t r =>
                 let* _ := emit (Solve (fst r)) in
                 ret (frame_at_set t (fst r) what (snd r)))
              (map (fva_result_of model loopless sense) reaction_ids) fva_result.

(** [reaction_ids]: all reactions, or those of [reaction_list]. *)
Definition resolve_reaction_ids (model : Model) (reaction_list : option (list string))
  : Result (list string) :=
  match reaction_list with
  | None => Ok (map id (reactions model))
  | Some l => rbind (get_by_any model l) (fun rs => Ok (map id rs))
  end.

Definition zeros (reaction_ids : list string) : Series :=
  map (fun i => (i, 0%Q)) reaction_ids.

Definition flux_variability_analysis `{Cobra} (model : Model)
    (reaction_list : option (list string)) (loopless : bool)
    (fraction_of_optimum : Q) (pfba_factor : option Q) (processes : option Z)
  : M Table :=
  let* reaction_ids := lift (resolve_reaction_ids model reaction_list) in
  let* processes :=
    match processes with
    | None => let* _ := load_global "configuration" in ret configuration_processes
    | Some p => ret p
    end in
  let num_reactions := length reaction_ids in
  let processes := Z.min processes (Z.of_nat num_reactions) in
  let fva_result :=
    [("minimum", zeros reaction_ids); ("maximum", zeros reaction_ids)] in
  (* with model: *)
  let* _ := emit (Solve "baseline") in
  let* value := lift (slim_optimize model) in
  let bound := Some (fraction_of_optimum * value)%Q in
  let old_bounds :=
    if String.eqb (direction (solver_objective model)) "max"
    then (bound, None) else (None, bound) in
  let fva_old_objective :=
    problem_Variable "fva_old_objective" (fst old_bounds) (snd old_bounds) in
  let fva_old_obj_constraint :=
    CCon {| con_name := "fva_old_objective_constraint";
            con_lb := Some 0%Q; con_ub := Some 0%Q;
            con_coefficients :=
              linear_coefficients (solver_objective model)
              ++ [(fva_old_objective, - (1))%Q] |} in
  let model :=
    add_cons_vars model
      [CVar fva_old_objective (fst old_bounds) (snd old_bounds);
       fva_old_obj_constraint] in
  let* model :=
    match pfba_factor with
    | None => ret model
    | Some factor =>
        let* _ := (if Py.Qltb factor 1
                   then warn "The 'pfba_factor' should be larger or equal to 1."
                             "UserWarning"
                   else ret tt) in
        (* with model: *)
        let* _ := load_global "add_pfba" in
        let* inner := lift (cobra_add_pfba model 0) in
        let* _ := emit (Solve "flux_sum") in
        let* ub := lift (slim_optimize inner) in
        let flux_sum_ub := Some (factor * ub)%Q in
        let flux_sum := problem_Variable "flux_sum" None flux_sum_ub in
        let flux_sum_constraint :=
          CCon {| con_name := "flux_sum_constraint";
                  con_lb := Some 0%Q; con_ub := Some 0%Q;
                  con_coefficients :=
                    linear_coefficients (solver_objective inner)
                    ++ [(flux_sum, - (1))%Q] |} in
        ret (add_cons_vars model [CVar flux_sum None flux_sum_ub; flux_sum_constraint])
    end in
  let model :=
    set_objective model
      {| obj_name := fresh_objective_name model;
         direction := direction (solver_objective model);
         linear_coefficients := [] |} in
  mfor_each (fva_direction model loopless processes reaction_ids)
            ["minimum"; "maximum"] fva_result.

(* ================================================================== *)
(** * Aggregator: folding split pairs, and the final join *)
(* ================================================================== *)

(** [series[label]] *)
Definition series_get (s : Series) (label : string) : Result Q :=
  match dict_get String.eqb s label with
  | Some v => Ok v
  | None => Raise (KeyError label)
  end.

(** One iteration of [for rxn in fva[mode].keys()]; the state is the set
    [FVArxnSet] and the dictionary [tempdict]. *)
Definition fold_step (column : Series) (st : gset string * Series) (rxn : string)
  : Result (gset string * Series) :=
  let '(FVArxnSet, tempdict) := st in
  let rxn := if Py.contains reverse_suffix rxn
             then Py.replace reverse_suffix "" rxn else rxn in
  if bool_decide (rxn ∈ FVArxnSet) then Ok (FVArxnSet, tempdict)
  else
    let FVArxnSet := {[rxn]} ∪ FVArxnSet in
    rbind
      (if negb (dict_contains String.eqb column (rxn +:+ reverse_suffix))
       then series_get column rxn
       else rbind (series_get column rxn) (fun a =>
            rbind (series_get column (rxn +:+ reverse_suffix)) (fun b =>
            Ok (a + b)%Q)))
      (fun value => Ok (FVArxnSet, dict_set String.eqb tempdict rxn value)).

Definition fold_column (column : Series) : Result Series :=
  rbind (for_each (fold_step column) (dict_keys column) (∅, ([] : Series)))
        (fun st => Ok (snd st)).

(** [for mode in fva.keys(): ... fva2[mode] = tempdict]; the two branches on
    [mode] run the same code. *)
Definition fold_fva (fva_table : Table) : Result Table :=
  for_each (fun fva2 mode =>
              match dict_get String.eqb fva_table mode with
              | None => Raise (KeyError mode)
              | Some column =>
                  rbind (if String.eqb mode "maximum"
                         then fold_column column else fold_column column)
                        (fun tempdict => Ok (dict_set String.eqb fva2 mode tempdict))
              end)
           (dict_keys fva_table) [].

Definition get_sum_of_fluxes `{Cobra} (model : Model) : Result Q :=
  rbind (get_weightings model) (fun weightings =>
  for_each (fun sum_of_fluxes reaction_id =>
              rbind (get_by_id (reactions model) reaction_id) (fun r =>
              match dict_get String.eqb weightings reaction_id with
              | Some w => Ok (sum_of_fluxes + Qabs (flux model r) * w)%Q
              | None => Raise (KeyError reaction_id)
              end))
           (dict_keys weightings) 0%Q).

Definition weight_of (weightings : Weightings) (k : string) : Result Q :=
  match dict_get String.eqb weightings k with
  | Some w => Ok w
  | None => Raise (KeyError k)
  end.

(** The [fix_sof_for_fva] branch up to the FVA call: the split model with
    the flux-sum and objective constraints, and the reactions to analyse. *)
Definition sof_model `{Cobra} (cobra_model : Model) (obj : string) (objvalue : Q)
    (rxnlist : list Reaction) : M (Model * list Reaction) :=
  let* sum_of_fluxes := lift (get_sum_of_fluxes cobra_model) in
  let* weightings := lift (get_weightings cobra_model) in
  let cobra_model2 := cobra_model in
  let* irr_model := lift (rev2irrev cobra_model2) in
  let* _ := print "Setting SOF model" in
  let* weightings :=
    lift (for_each (fun ws reaction =>
                      if Py.contains reverse_suffix (id reaction) then
                        let originalreaction :=
                          Py.replace reverse_suffix "" (id reaction) in
                        rbind (weight_of ws originalreaction) (fun w =>
                        Ok (dict_set String.eqb ws (id reaction) w))
                      else Ok ws)
                   (reactions irr_model) weightings) in
  let* coefficients :=
    lift (for_each (fun cs reaction =>
                      rbind (weight_of weightings (id reaction)) (fun w =>
                      Ok (dict_set Var_eqb
                            (dict_set Var_eqb cs (forward_variable reaction) w)
                            (reverse_variable reaction) w)))
                   (reactions irr_model) []) in
  let sofconstraint :=
    CCon {| con_name := "sofconstraint"; con_lb := Some sum_of_fluxes;
            con_ub := Some sum_of_fluxes; con_coefficients := coefficients |} in
  let irr_model := add_cons_vars irr_model [sofconstraint] in
  let sum_of_fluxes_var := problem_Variable "sum_of_fluxes" None None in
  let new_coefficients := dict_set Var_eqb coefficients sum_of_fluxes_var (- (1))%Q in
  let sofvariableconstraint :=
    CCon {| con_name := ""; con_lb := Some 0%Q; con_ub := Some 0%Q;
            con_coefficients := new_coefficients |} in
  let irr_model :=
    add_cons_vars irr_model [CVar sum_of_fluxes_var None None; sofvariableconstraint] in
  let* objrxn := lift (get_by_id (reactions irr_model) obj) in
  let phloemconstraint :=
    CCon {| con_name := "phloem_output"; con_lb := Some objvalue;
            con_ub := Some objvalue;
            con_coefficients :=
              [(forward_variable objrxn, 1); (reverse_variable objrxn, - (1))]%Q |} in
  let irr_model := add_cons_vars irr_model [phloemconstraint] in
  let* _ := emit (Solve "sof") in
  let irr_model := optimize irr_model in
  let sfmodel := irr_model in
  let* rxnlist2 :=
    lift (for_each (fun rxnlist2 rxn =>
                      rbind (get_by_id (reactions sfmodel) (id rxn)) (fun rxn =>
                      rbind (if Py.Qltb (lower_bound rxn) 0
                                && Py.Qltb 0 (upper_bound rxn)
                             then rbind (weight_of weightings (id rxn)) (fun w =>
                                  if negb (Qeq_bool w 0) then
                                    rbind (get_by_id (reactions sfmodel)
                                             (id rxn +:+ reverse_suffix))
                                          (fun rr => Ok (rxnlist2 ++ [rr]))
                                  else Ok rxnlist2)
                             else Ok rxnlist2) (fun rxnlist2 =>
                      rbind (get_by_id (reactions sfmodel) (id rxn)) (fun r =>
                      Ok (rxnlist2 ++ [r])))))
                   rxnlist []) in
  ret (sfmodel, rxnlist2).

Definition pFBA_FVA_run `{Cobra} (cobra_model : Model) (obj : string)
    (rxnlist : list Reaction) (processes : Z) (fix_sof_for_fva : bool)
  : M (Model * Solution) :=
  let* _ := print "Running pFBA" in
  let* ms := pfba_Weighted cobra_model None 1 (Some (ObjReaction obj)) None in
  let '(cobra_model, solution) := ms in
  let* objvalue := lift (weight_of solution obj) in
  if fix_sof_for_fva then
    let* sr := sof_model cobra_model obj objvalue rxnlist in
    let '(sfmodel, rxnlist2) := sr in
    let* _ := print "Running FVA" in
    let* _ := emit (Solve "fva") in
    let* fva_table :=
      lift (cobra_flux_variability_analysis sfmodel (map id rxnlist2) processes) in
    let* _ := print "Processing results" in
    let* fva2 := lift (fold_fva fva_table) in
    ret (set_fva cobra_model fva2, solution)
  else
    let* _ :=
      (if Nat.eqb (length rxnlist) 0 then print "FVA list is empty"
       else print ("Running FVA on " +:+ Py.str (length rxnlist)
                   +:+ " reactions using " +:+ Py.str (Z.to_nat processes)
                   +:+ " processes")) in
    let* fva_table :=
      flux_variability_analysis cobra_model (Some (map id rxnlist)) true 1 None
                                (Some processes) in
    ret (set_fva cobra_model fva_table, solution).

(** One row of the combined frame. *)
Record Row : Type := mkRow {
  row_id : string;
  fluxes : Q;
  minimum : option Q;
  maximum : option Q
}.

(** Values of a column at the rows carrying [label], in row order. *)
Definition column_at (t : Table) (column label : string) : list Q :=
  match dict_get String.eqb t column with
  | Some s => map snd (filter (fun kv => String.eqb (fst kv) label) s)
  | None => []
  end.

(** [pfba_df.join(fva_df)]: pandas joins on the index with [how="left"]
    unless told otherwise, so the rows are those of the calling frame, in its
    order; a row without partner carries missing values. *)
Definition DataFrame_join (pfba_df : Series) (fva_df : Table) : list Row :=
  flat_map
    (fun kv =>
       match combine (column_at fva_df "minimum" (fst kv))
                     (column_at fva_df "maximum" (fst kv)) with
       | [] => [ {| row_id := fst kv; fluxes := snd kv;
                    minimum := None; maximum := None |} ]
       | partners =>
           map (fun mm => {| row_id := fst kv; fluxes := snd kv;
                             minimum := Some (fst mm); maximum := Some (snd mm) |})
               partners
       end)
    pfba_df.


Definition get_pfba_fva_solution `{Cobra} (fba_model : Model) (rxn_list : list Reaction)
    (objective : string) (processes : Z) (fix_sof_for_fva : bool)
  : M (Model * list Row) :=
  let* _ := print ("Started running pFBA (and FVA) @ " +:+ clock_text 0) in
  let* ms := pFBA_FVA_run fba_model objective rxn_list processes fix_sof_for_fva in
  let '(fba_model, pfba_solution) := ms in
  let* _ := print ("Finished running pFBA (and FVA) @ " +:+ clock_text 1
                   +:+ ", that took " +:+ clock_text 2 +:+ " minutes") in
  let pfba_df := pfba_solution in
  let* fva_df := match fva fba_model with
                 | Some t => ret t
                 | None => raise (AttributeError "fva")
                 end in
  let combined_df := DataFrame_join pfba_df fva_df in
  ret (fba_model, combined_df).

(* ================================================================== *)
(** * A small two-reaction model and a stand-in for the collaborators *)
(* ================================================================== *)

Module Demo.

Definition R1 : Reaction :=
  {| id := "R1"; lower_bound := 0; upper_bound := 10; metabolites := [] |}.

Definition R2 : Reaction :=
  {| id := "R2"; lower_bound := - (5); upper_bound := 5; metabolites := [] |}.

Definition linker (i : nat) (coefficient : Q) : Reaction :=
  {| id := "SUCROSE_v_gc_Linker_" +:+ Py.str i;
     lower_bound := 0; upper_bound := 1000;
     metabolites := [("SUCROSE_v_gc_" +:+ Py.str i, coefficient)] |}.

Definition start_objective : Objective :=
  {| obj_name := "growth"; direction := "max"; linear_coefficients := [] |}.

Definition model_of (rs : list Reaction) : Model :=
  {| reactions := rs; solver_objective := start_objective;
     cons_vars := []; fva := None |}.

Definition two_reactions : Model := model_of [R1; R2].

Definition plain (i : string) : Reaction :=
  {| id := i; lower_bound := 0; upper_bound := 1000; metabolites := [] |}.

(** Two phases with linker coefficients -0.5 and -0.25. *)
Definition two_phases : Model :=
  model_of [linker 1 (- (1 # 2)); linker 2 (- (1 # 4));
            plain "EX_X_CO2_t_1"; plain "Phloem_tx_overall"; plain "PGK_c_2"].

Definition two_phase_weights : Weightings :=
  [("SUCROSE_v_gc_Linker_1", 2%Q); ("EX_X_CO2_t_1", 0%Q);
   ("Phloem_tx_overall", 0%Q); ("SUCROSE_v_gc_Linker_2", 4%Q);
   ("PGK_c_2", 4%Q)].

(** An FVA table without split pairs. *)
Definition folded_table : Table :=
  [("minimum", [("R1", 0%Q); ("R2", (- (5))%Q)]);
   ("maximum", [("R1", 10%Q); ("R2", 5%Q)])].

(** Eleven phases; the linker of phase [i] has coefficient -1/(i+1), so
    phase [i] has length [i + 1]. *)
Definition eleven_phases : Model :=
  model_of (map (fun i => linker i (- (1 # Pos.of_nat (S i)))) (seq 1 11)).

(** A stand-in library: variables print as optlang prints them, every
    solve succeeds with value 1, the pool returns the chunks last first,
    and the model has [phases] phases. *)
Definition cobra (phases : nat) : Cobra :=
  {| check_number_of_models := fun _ => Ok phases;
     forward_variable := fun r =>
       {| var_name := id r; var_text := "0 <= " +:+ id r +:+ " <= 1000" |};
     reverse_variable := fun r =>
       {| var_name := id r +:+ "_reverse_0a1b2";
          var_text := "0 <= " +:+ id r +:+ "_reverse_0a1b2 <= 1000" |};
     flux := fun _ _ => 1%Q;
     problem_Variable := fun name _ _ =>
       {| var_name := name; var_text := name |};
     fresh_objective_name := fun _ => "6f1c2d3e";
     fix_objective_as_constraint := fun m _ => Ok m;
     cobra_add_pfba := fun m _ => Ok m;
     slim_optimize := fun _ => Ok 1%Q;
     optimize := fun m => m;
     get_solution := fun _ rs => map (fun r => (id r, 1%Q)) rs;
     _fva_step := fun _ _ sense rxn_id =>
       if String.eqb sense "min" then 0%Q else inject_Z (Z.of_nat (String.length rxn_id));
     cobra_flux_variability_analysis := fun _ ids _ =>
       Ok [("minimum", map (fun i => (i, 0%Q)) ids);
           ("maximum", map (fun i => (i, 1%Q)) ids)];
     configuration_processes := 1%Z;
     imap_unordered := @rev (list (string * Q));
     imap_unordered_complete := fun chunks =>
       Permutation_sym (Permutation_rev chunks);
     clock_text := fun _ => "t" |}.

End Demo.

(* ================================================================== *)
(** * Vocabulary of the statements *)
(* ================================================================== *)

(** Writing a label that is in the index touches no other row. *)
Definition series_update (s : Series) (label : string) (value : Q) : Series :=
  map (fun kv => if String.eqb (fst kv) label then (fst kv, value) else kv) s.

Definition frame_update (t : Table) (label column : string) (value : Q) : Table :=
  map (fun cs => if String.eqb (fst cs) column
                 then (fst cs, series_update (snd cs) label value) else cs) t.

(** Every column of the frame has the index [ids]. *)
Definition labelled (ids : list string) (t : Table) : Prop :=
  forall cs, In cs t -> dict_keys (snd cs) = ids.

(** Writing one worker result, with and without enlargement. *)
Definition write_result (column : string) (t : Table) (r : string * Q) : Table :=
  frame_at_set t (fst r) column (snd r).

Definition update_result (column : string) (t : Table) (r : string * Q) : Table :=
  frame_update t (fst r) column (snd r).

(** The table after all results of one direction have been written. *)
Definition fva_written `{Cobra} (model : Model) (loopless : bool)
    (reaction_ids : list string) (t : Table) (what : string) : Table :=
  fold_left (update_result what)
            (map (fva_result_of model loopless (Py.slice_to 3 what)) reaction_ids) t.

Definition reversible (r : Reaction) : Prop := (lower_bound r < 0)%Q.

(** The generated partner: a copy that is renamed and capped at 0. *)
Definition reverse_of (r : Reaction) : Reaction :=
  {| id := id r +:+ "_reverse"; lower_bound := lower_bound r;
     upper_bound := 0; metabolites := metabolites r |}.

(** State of the loop after the reactions [done], with [todo] to come. *)
Record split_inv (rs done todo : list Reaction) (exp_model : Model) : Prop := {
  inv_nodup : NoDup (map id (reactions exp_model));
  inv_todo : forall r, In r todo -> In r (reactions exp_model);
  inv_forward : forall r, In r done -> reversible r ->
                          In (set_lower_bound r 0) (reactions exp_model);
  inv_keep : forall r, In r done -> ~ reversible r -> In r (reactions exp_model);
  inv_reverse : forall r, In r done -> reversible r ->
                          ~ In (id r +:+ "_reverse") (map id rs) ->
                          In (reverse_of r) (reactions exp_model);
  inv_ids : forall i, In i (map id (reactions exp_model)) ->
                      In i (map id rs) \/
                      exists r, In r done /\ i = id r +:+ "_reverse"
}.

(** Every entry is 0 for an accounting identifier, or the length of the
    one-digit phase named by the identifier's final character. *)
Definition weights_sound (model : Model) (n : nat) (w : Weightings) : Prop :=
  forall k v, dict_get String.eqb w k = Some v ->
    (is_accounting k = true /\ v = 0%Q)
    \/ exists j, 1 <= j /\ j <= 9 /\ j <= n
                 /\ Py.last_char k = Some (Py.str j)
                 /\ phase_length model j = Ok v.

(** Every other reaction whose final character names one of the first [m]
    phases holds that phase's length. *)
Definition weights_complete (model : Model) (m : nat) (w : Weightings) : Prop :=
  forall r j, In r (reactions model) -> is_accounting (id r) = false ->
    1 <= j -> j <= m -> Py.last_char (id r) = Some (Py.str j) ->
    exists v, phase_length model j = Ok v /\ dict_get String.eqb w (id r) = Some v.

(** The label of a variable, its coefficient by the rule of the specification
    and the notice that goes with it. *)
Definition label_of (v : Var) : string :=
  match variable_label v with Ok l => l | Raise _ => EmptyString end.

Definition coefficient_of (ws : Weightings) (v : Var) : Q :=
  match first_match_weight ws (label_of v) with Some x => x | None => 1%Q end.

Definition notices_of (ws : Weightings) (v : Var) : list Event :=
  match first_match_weight ws (label_of v) with
  | Some _ => []
  | None => [Print (not_found_notice (label_of v))]
  end.

(* ================================================================== *)
(** * Vocabulary of the further properties *)
(* ================================================================== *)

(** Where a reaction of the split model comes from: still to be visited, or
    an untouched, a zeroed or a generated reaction of one already visited. *)
Definition split_origin (done todo : list Reaction) (y : Reaction) : Prop :=
  In y todo
  \/ exists r, In r done
               /\ ((~ reversible r /\ y = r)
                   \/ (reversible r
                       /\ (y = set_lower_bound r 0 \/ y = reverse_of r))).

(** Shape of the split model while the loop runs: the input's reactions, in
    place and with their identifiers, followed by the generated ones. *)
Definition split_shape (m exp_model : Model) (added : list Reaction) : Prop :=
  solver_objective exp_model = solver_objective m
  /\ cons_vars exp_model = cons_vars m
  /\ fva exp_model = fva m
  /\ (exists base, reactions exp_model = base ++ added
                   /\ map id base = map id (reactions m))
  /\ forall a, In a added ->
       upper_bound a = 0%Q /\ (lower_bound a < 0)%Q
       /\ exists r, In r (reactions m) /\ id a = id r +:+ "_reverse".

(** The two-phase model with its reactions in the opposite order. *)
Definition two_phases_reversed : Model :=
  Demo.model_of (rev (reactions Demo.two_phases)).

Definition two_phase_weights_reversed : Weightings :=
  [("Phloem_tx_overall", 0%Q); ("EX_X_CO2_t_1", 0%Q);
   ("SUCROSE_v_gc_Linker_1", 2%Q); ("PGK_c_2", 4%Q);
   ("SUCROSE_v_gc_Linker_2", 4%Q)].

(** Whether a character occurs in a text, and the text without it. *)
Fixpoint has_char (c : ascii) (s : string) : bool :=
  match s with
  | EmptyString => false
  | String a s' => Ascii.eqb a c || has_char c s'
  end.

Fixpoint remove_char (c : ascii) (s : string) : string :=
  match s with
  | EmptyString => EmptyString
  | String a s' => if Ascii.eqb a c then remove_char c s' else String a (remove_char c s')
  end.

(** A variable printed the way optlang prints a bounded variable. *)
Definition bounded_variable (lb name ub : string) : Var :=
  {| var_name := name; var_text := lb +:+ " <= " +:+ name +:+ " <= " +:+ ub |}.

Definition lower_bounded_variable (lb name : string) : Var :=
  {| var_name := name; var_text := lb +:+ " <= " +:+ name |}.

(** A library like [c] whose flux variables are given by [fwd] and [rev]. *)
Definition with_variables (c : Cobra) (fwd rev : Reaction -> Var) : Cobra :=
  {| check_number_of_models := @check_number_of_models c;
     forward_variable := fwd;
     reverse_variable := rev;
     flux := @flux c;
     problem_Variable := @problem_Variable c;
     fresh_objective_name := @fresh_objective_name c;
     fix_objective_as_constraint := @fix_objective_as_constraint c;
     cobra_add_pfba := @cobra_add_pfba c;
     slim_optimize := @slim_optimize c;
     optimize := @optimize c;
     get_solution := @get_solution c;
     _fva_step := @_fva_step c;
     cobra_flux_variability_analysis := @cobra_flux_variability_analysis c;
     configuration_processes := @configuration_processes c;
     imap_unordered := @imap_unordered c;
     imap_unordered_complete := @imap_unordered_complete c;
     clock_text := @clock_text c |}.

(** Variables whose text is the bare name, without bounds. *)
Definition bare_variables : Cobra :=
  with_variables (Demo.cobra 2)
    (fun r => {| var_name := id r; var_text := id r |})
    (fun r => {| var_name := id r +:+ "_reverse"; var_text := id r +:+ "_reverse" |}).

(** The column a direction of the analysis ends with: every listed reaction
    with the optimum the solver step found for it. *)
Definition fva_column `{Cobra} (snapshot : Model) (loopless : bool) (sense : string)
    (reaction_ids : list string) : Series :=
  map (fun i => (i, _fva_step snapshot loopless sense i)) reaction_ids.


(** The name a row of the analysis is folded under: the label with every
    "_reverse" taken out. *)
Definition folded_name (rxn : string) : string :=
  if Py.contains reverse_suffix rxn then Py.replace reverse_suffix "" rxn else rxn.

(** The value folded under a name: its own row, plus the row of its split
    partner where the column has one. *)
Definition pair_value (column : Series) (rxn : string) : option Q :=
  match dict_get String.eqb column rxn with
  | None => None
  | Some a =>
      match dict_get String.eqb column (rxn +:+ reverse_suffix) with
      | Some b => Some (a + b)%Q
      | None => Some a
      end
  end.

(** A column with a split pair and a single reaction. *)
Definition split_column : Series :=
  [("R1", 3%Q); ("R2_reverse", (- (5))%Q); ("R2", 4%Q)].


(** A reversible reaction of phase 1, and a one-phase model around it. *)
Definition PGK_c_1 : Reaction :=
  {| id := "PGK_c_1"; lower_bound := - (5); upper_bound := 5; metabolites := [] |}.

Definition one_phase_reversible : Model :=
  Demo.model_of [Demo.linker 1 (- (1 # 2)); PGK_c_1; Demo.plain "Phloem_tx_overall"].
(* ================================================================== *)
(** * Properties *)
(* ================================================================== *)

(** ** Generic facts: comparisons, strings, loops, dictionaries *)

Lemma Qltb_lt (x y : Q) : Py.Qltb x y = true <-> (x < y)%Q.
Proof.
  unfold Py.Qltb. rewrite negb_true_iff. split.
  - intros H. apply Qnot_le_lt. intros Hle.
    apply Qle_bool_iff in Hle. congruence.
  - intros H. destruct (Qle_bool y x) eqn:E; [|reflexivity].
    apply Qle_bool_iff in E. exfalso. exact (Qlt_not_le _ _ H E).
Qed.

Lemma Qltb_nlt (x y : Q) : Py.Qltb x y = false <-> ~ (x < y)%Q.
Proof.
  rewrite <- Qltb_lt. destruct (Py.Qltb x y); split; congruence.
Qed.

Lemma list_ascii_of_append (a b : string) :
  list_ascii_of_string (a +:+ b) = list_ascii_of_string a ++ list_ascii_of_string b.
Proof. induction a as [|c a IH]; simpl; [reflexivity | now rewrite IH]. Qed.

Lemma append_inv_tail (a b s : string) : a +:+ s = b +:+ s -> a = b.
Proof.
  intros E. apply (f_equal list_ascii_of_string) in E.
  rewrite !list_ascii_of_append in E. apply app_inv_tail in E.
  rewrite <- (string_of_list_ascii_of_string a), <- (string_of_list_ascii_of_string b).
  now rewrite E.
Qed.

Lemma for_each_app {A S : Type} (body : S -> A -> Result S) (l1 l2 : list A) (s : S) :
  for_each body (l1 ++ l2) s = rbind (for_each body l1 s) (for_each body l2).
Proof.
  revert s. induction l1 as [|x l1 IH]; intros s; simpl; [reflexivity|].
  destruct (body s x); simpl; auto.
Qed.

(** A property that every iteration preserves holds when the loop returns. *)
Lemma for_each_inv {A S : Type} (P : S -> Prop) (body : S -> A -> Result S)
    (l : list A) :
  (forall s x s', In x l -> P s -> body s x = Ok s' -> P s') ->
  forall s s', P s -> for_each body l s = Ok s' -> P s'.
Proof.
  induction l as [|x l IH]; intros Hstep s s' Hs Hrun; simpl in Hrun.
  - now inversion Hrun; subst.
  - destruct (body s x) as [s1|e] eqn:E; simpl in Hrun; [|discriminate].
    apply (IH (fun s0 y s0' Hy => Hstep s0 y s0' (or_intror Hy)) s1 s'); auto.
    apply (Hstep s x s1); simpl; auto.
Qed.

Section DictFacts.
Context {V : Type}.
Implicit Types (d : list (string * V)) (k : string) (v : V).

Lemma dict_get_set_eq d k v : dict_get String.eqb (dict_set String.eqb d k v) k = Some v.
Proof.
  induction d as [|[k' v'] d IH]; simpl.
  - now rewrite String.eqb_refl.
  - destruct (String.eqb k' k) eqn:E; simpl; rewrite E; auto.
Qed.

Lemma dict_get_set_ne d k k' v :
  k <> k' -> dict_get String.eqb (dict_set String.eqb d k v) k' = dict_get String.eqb d k'.
Proof.
  intros Hne. induction d as [|[k0 v0] d IH]; simpl.
  - destruct (String.eqb_spec k k'); congruence.
  - destruct (String.eqb_spec k0 k) as [->|Hk]; simpl.
    + destruct (String.eqb_spec k k'); congruence.
    + now rewrite IH.
Qed.

Lemma dict_contains_In d k :
  dict_contains String.eqb d k = true <-> In k (dict_keys d).
Proof.
  unfold dict_contains. rewrite existsb_exists. split.
  - intros [x [Hx E]]. apply String.eqb_eq in E. now subst.
  - intros H. exists k. split; [assumption | apply String.eqb_refl].
Qed.

Lemma dict_get_None d k : ~ In k (dict_keys d) -> dict_get String.eqb d k = None.
Proof.
  induction d as [|[k' v'] d IH]; simpl; intros H; [reflexivity|].
  destruct (String.eqb_spec k' k); [tauto | apply IH; tauto].
Qed.

Lemma dict_get_In d k v : dict_get String.eqb d k = Some v -> In (k, v) d.
Proof.
  induction d as [|[k' v'] d IH]; simpl; [discriminate|].
  destruct (String.eqb_spec k' k) as [->|Hne]; intros H.
  - inversion H; subst. now left.
  - right. auto.
Qed.

Lemma dict_get_first d k v : dict_get String.eqb ((k, v) :: d) k = Some v.
Proof. simpl. now rewrite String.eqb_refl. Qed.

(** Writing a new key appends it. *)
Lemma dict_set_fresh d k v :
  ~ In k (dict_keys d) -> dict_set String.eqb d k v = d ++ [(k, v)].
Proof.
  induction d as [|[k' v'] d IH]; simpl; intros H; [reflexivity|].
  destruct (String.eqb_spec k' k); [tauto|]. rewrite IH; tauto.
Qed.

Lemma dict_set_keys d k v :
  dict_keys (dict_set String.eqb d k v)
  = if dict_contains String.eqb d k then dict_keys d else dict_keys d ++ [k].
Proof.
  unfold dict_contains. induction d as [|[k' v'] d IH]; simpl; [reflexivity|].
  destruct (String.eqb_spec k' k); simpl; [reflexivity|].
  unfold dict_keys in *. rewrite IH.
  destruct (existsb _ (map fst d)); reflexivity.
Qed.

(** Keys stay pairwise distinct under assignment. *)
Lemma dict_set_NoDup d k v :
  NoDup (dict_keys d) -> NoDup (dict_keys (dict_set String.eqb d k v)).
Proof.
  intros H. rewrite dict_set_keys.
  destruct (dict_contains String.eqb d k) eqn:E; [assumption|].
  apply NoDup_app; auto.
  - constructor; [simpl; tauto | constructor].
  - intros x Hx [<-|[]]. apply dict_contains_In in Hx. congruence.
Qed.
End DictFacts.

(* ------------------------------------------------------------------ *)
(** ** Irreversibility splitter *)
(* ------------------------------------------------------------------ *)

Section Splitter.

Lemma find_by_id (rs : list Reaction) (r : Reaction) :
  NoDup (map id rs) -> In r rs ->
  find (fun x => String.eqb (id x) (id r)) rs = Some r.
Proof.
  induction rs as [|x rs IH]; simpl; intros Hnd Hin; [tauto|].
  apply NoDup_cons_iff in Hnd as [Hx Hnd].
  destruct Hin as [->|Hin].
  - now rewrite String.eqb_refl.
  - destruct (String.eqb_spec (id x) (id r)) as [E|_]; [|auto].
    exfalso. apply Hx. rewrite E. now apply in_map.
Qed.

Lemma update_by_id_ids rs i f :
  (forall r, id (f r) = id r) -> map id (update_by_id rs i f) = map id rs.
Proof.
  intros Hf. induction rs as [|x rs IH]; simpl; [reflexivity|].
  destruct (String.eqb (id x) i); simpl; [now rewrite Hf | now rewrite IH].
Qed.

Lemma update_by_id_other rs i f x :
  In x rs -> id x <> i -> In x (update_by_id rs i f).
Proof.
  induction rs as [|y rs IH]; simpl; [tauto|]. intros [->|Hin] Hne.
  - destruct (String.eqb_spec (id x) i); [tauto | now left].
  - destruct (String.eqb (id y) i); simpl; auto.
Qed.

Lemma update_by_id_hit rs i f r :
  NoDup (map id rs) -> In r rs -> id r = i -> In (f r) (update_by_id rs i f).
Proof.
  induction rs as [|y rs IH]; simpl; [tauto|]. intros Hnd Hin <-.
  apply NoDup_cons_iff in Hnd as [Hy Hnd].
  destruct Hin as [->|Hin].
  - rewrite String.eqb_refl. now left.
  - destruct (String.eqb_spec (id y) (id r)) as [E|_].
    + exfalso. apply Hy. rewrite E. now apply in_map.
    + right. now apply IH.
Qed.

Lemma has_id_In rs i : has_id rs i = true <-> In i (map id rs).
Proof.
  unfold has_id. rewrite existsb_exists, in_map_iff. split.
  - intros [x [Hx E]]. apply String.eqb_eq in E. eauto.
  - intros [x [E Hx]]. exists x. split; [assumption|]. now apply String.eqb_eq.
Qed.

Lemma rev2irrev_step_inv rs done x todo exp_model :
  rs = done ++ x :: todo -> NoDup (map id rs) ->
  split_inv rs done (x :: todo) exp_model ->
  exists exp_model', rev2irrev_step exp_model x = Ok exp_model'
                     /\ split_inv rs (done ++ [x]) todo exp_model'.
Proof.
  intros Hrs Hnd [Ind Itodo Ifwd Ikeep Irev Iids].
  assert (Hx : In x (reactions exp_model)) by (apply Itodo; now left).
  assert (Hdone : forall r, In r done -> id r <> id x).
  { intros r Hr E. subst rs. rewrite map_app in Hnd. simpl in Hnd.
    apply NoDup_remove_2 in Hnd. apply Hnd. apply in_or_app. left.
    rewrite <- E. now apply in_map. }
  assert (Htodo : forall r, In r todo -> id r <> id x).
  { intros r Hr E. subst rs. rewrite map_app in Hnd. simpl in Hnd.
    apply NoDup_remove_2 in Hnd. apply Hnd. apply in_or_app. right.
    rewrite <- E. now apply in_map. }
  assert (Hxrs : In (id x) (map id rs)).
  { subst rs. apply in_map, in_or_app. right. now left. }
  assert (Hids_step : forall i,
             In i (map id (reactions exp_model)) ->
             In i (map id rs) \/
             exists r, In r (done ++ [x]) /\ i = id r +:+ "_reverse").
  { intros i Hi. apply Iids in Hi as [Hi|[r [Hr E]]]; [now left|].
    right. exists r. split; [apply in_or_app; now left | assumption]. }
  unfold rev2irrev_step, get_by_id. rewrite (find_by_id _ _ Ind Hx). simpl.
  destruct (Py.Qltb (lower_bound x) 0) eqn:Hlt.
  - apply Qltb_lt in Hlt.
    set (upd := update_by_id (reactions exp_model) (id x)
                  (fun r => set_lower_bound r 0)).
    assert (Hupd_ids : map id upd = map id (reactions exp_model))
      by (apply update_by_id_ids; reflexivity).
    assert (Utodo : forall r, In r todo -> In r upd).
    { intros r Hr. apply update_by_id_other; [apply Itodo; now right | now apply Htodo]. }
    assert (Ufwd : forall r, In r (done ++ [x]) -> reversible r ->
                             In (set_lower_bound r 0) upd).
    { intros r Hr Hrev. apply in_app_or in Hr as [Hr|[<-|[]]].
      - apply update_by_id_other; [now apply Ifwd | simpl; now apply Hdone].
      - now apply (update_by_id_hit _ _ (fun r => set_lower_bound r 0)). }
    assert (Ukeep : forall r, In r (done ++ [x]) -> ~ reversible r -> In r upd).
    { intros r Hr Hrev. apply in_app_or in Hr as [Hr|[<-|[]]].
      - apply update_by_id_other; [now apply Ikeep | now apply Hdone].
      - contradiction. }
    assert (Urev : forall r, In r done -> reversible r ->
                             ~ In (id r +:+ "_reverse") (map id rs) ->
                             In (reverse_of r) upd).
    { intros r Hr Hrev Hfresh.
      apply update_by_id_other; [now apply Irev|].
      simpl. intros E. apply Hfresh. now rewrite E. }
    eexists. split; [reflexivity|].
    unfold add_reaction. simpl. fold upd.
    destruct (has_id upd (id x +:+ reverse_suffix)) eqn:Hhas.
    + (* the suffixed identifier is taken: nothing is added *)
      apply has_id_In in Hhas. rewrite Hupd_ids in Hhas.
      constructor; simpl; auto.
      * now rewrite Hupd_ids.
      * intros r Hr Hrev Hfresh. apply in_app_or in Hr as [Hr|[<-|[]]]; [auto|].
        exfalso. apply Iids in Hhas as [Hin|[r' [Hr' E]]]; [tauto|].
        apply append_inv_tail in E. symmetry in E. now apply Hdone in E.
      * intros i Hi. rewrite Hupd_ids in Hi. auto.
    + (* the partner is appended *)
      assert (Hfresh : ~ In (id x +:+ reverse_suffix) (map id upd)).
      { intros Hin. apply has_id_In in Hin. congruence. }
      constructor; simpl.
      * rewrite map_app. simpl. apply NoDup_app.
        -- now rewrite Hupd_ids.
        -- constructor; [simpl; tauto | constructor].
        -- intros i Hi [<-|[]]. contradiction.
      * intros r Hr. apply in_or_app. left. auto.
      * intros r Hr Hrev. apply in_or_app. left. auto.
      * intros r Hr Hrev. apply in_or_app. left. auto.
      * intros r Hr Hrev Hfr. apply in_app_or in Hr as [Hr|[<-|[]]].
        -- apply in_or_app. left. auto.
        -- apply in_or_app. right. now left.
      * intros i Hi. rewrite map_app in Hi. simpl in Hi.
        apply in_app_or in Hi as [Hi|[<-|[]]].
        -- rewrite Hupd_ids in Hi. auto.
        -- right. exists x. split; [apply in_or_app; right; now left | reflexivity].
  - apply Qltb_nlt in Hlt.
    eexists. split; [reflexivity|].
    constructor; auto.
    + intros r Hr. apply Itodo. now right.
    + intros r Hr Hrev. apply in_app_or in Hr as [Hr|[<-|[]]]; [auto | contradiction].
    + intros r Hr Hrev. apply in_app_or in Hr as [Hr|[<-|[]]]; auto.
    + intros r Hr Hrev Hfr.
      apply in_app_or in Hr as [Hr|[<-|[]]]; [auto | contradiction].
Qed.


Lemma split_inv_start (m : Model) :
  NoDup (map id (reactions m)) -> split_inv (reactions m) [] (reactions m) m.
Proof.
  intros Hnd. constructor; auto; simpl; tauto.
Qed.

End Splitter.




(* ------------------------------------------------------------------ *)
(** ** Weighting generator *)
(* ------------------------------------------------------------------ *)

Section Weighting.

Lemma get_weightings_reaction_cases i len w x w' :
  get_weightings_reaction i len w x = Ok w' ->
  (is_accounting (id x) = true /\ w' = dict_set String.eqb w (id x) 0%Q)
  \/ (is_accounting (id x) = false
      /\ Py.last_char (id x) = Some (Py.str i)
      /\ w' = dict_set String.eqb w (id x) len)
  \/ (is_accounting (id x) = false
      /\ Py.last_char (id x) <> Some (Py.str i) /\ w' = w).
Proof.
  unfold get_weightings_reaction.
  destruct (is_accounting (id x)) eqn:Ha.
  - intros E. inversion E. now left.
  - destruct (Py.last_char (id x)) as [c|] eqn:Hc; [|discriminate].
    destruct (String.eqb_spec c (Py.str i)) as [->|Hne]; intros E; inversion E.
    + right. left. auto.
    + right. right. repeat split; auto. congruence.
Qed.

(** A key of the accounting pattern that holds 0 keeps 0. *)
Lemma accounting_key_kept i len w x w' k :
  get_weightings_reaction i len w x = Ok w' ->
  is_accounting k = true ->
  dict_get String.eqb w k = Some 0%Q -> dict_get String.eqb w' k = Some 0%Q.
Proof.
  intros Hstep Hk Hget.
  destruct (get_weightings_reaction_cases _ _ _ _ _ Hstep)
    as [[Ha ->]|[[Ha [_ ->]]|[_ [_ ->]]]]; auto.
  - destruct (String.eqb_spec (id x) k) as [<-|Hne].
    + apply dict_get_set_eq.
    + now rewrite dict_get_set_ne.
  - rewrite dict_get_set_ne; [assumption|]. intros E. congruence.
Qed.

Lemma accounting_loop i len rs : forall w w',
  for_each (get_weightings_reaction i len) rs w = Ok w' ->
  (forall k, is_accounting k = true ->
             dict_get String.eqb w k = Some 0%Q -> dict_get String.eqb w' k = Some 0%Q)
  /\ (forall r, In r rs -> is_accounting (id r) = true ->
                dict_get String.eqb w' (id r) = Some 0%Q).
Proof.
  induction rs as [|x rs IH]; intros w w' Hrun; simpl in Hrun.
  - inversion Hrun; subst. split; [auto | simpl; tauto].
  - destruct (get_weightings_reaction i len w x) as [w1|e] eqn:Hstep;
      simpl in Hrun; [|discriminate].
    destruct (IH _ _ Hrun) as [Hkeep Hset]. split.
    + intros k Hk Hget. apply Hkeep; [assumption|].
      now apply (accounting_key_kept _ _ _ _ _ _ Hstep).
    + intros r [<-|Hr] Ha; [|now apply Hset].
      apply Hkeep; [assumption|].
      destruct (get_weightings_reaction_cases _ _ _ _ _ Hstep)
        as [[_ ->]|[[Hf _]|[Hf _]]]; try congruence.
      apply dict_get_set_eq.
Qed.

Lemma accounting_phase model w i w' :
  get_weightings_phase model w i = Ok w' ->
  forall r, In r (reactions model) -> is_accounting (id r) = true ->
            dict_get String.eqb w' (id r) = Some 0%Q.
Proof.
  unfold get_weightings_phase. destruct (phase_length model i); simpl; [|discriminate].
  intros Hrun. now apply (accounting_loop _ _ _ _ _ Hrun).
Qed.

End Weighting.


Section PhaseDigits.

Lemma last_char_single (s c : string) :
  Py.last_char s = Some c -> exists a, c = String a EmptyString.
Proof.
  induction s as [|a s IH]; [discriminate|].
  destruct s as [|b s]; [intros E; inversion E; eauto | exact IH].
Qed.

Lemma str_one_char (i : nat) (a : ascii) : Py.str i = String a EmptyString -> i <= 9.
Proof.
  unfold Py.str. intros E. rewrite <- (DecimalNat.Unsigned.of_to i).
  destruct (Nat.to_uint i) as [|d|d|d|d|d|d|d|d|d|d]; simpl in E;
    try discriminate; destruct d; simpl in E; try discriminate;
    vm_compute; repeat constructor.
Qed.

Lemma str_inj (i j : nat) : Py.str i = Py.str j -> i = j.
Proof.
  unfold Py.str. intros E. apply DecimalNat.Unsigned.to_uint_inj.
  apply (f_equal NilEmpty.uint_of_string) in E.
  rewrite !NilEmpty.usu in E. congruence.
Qed.

(** One character never equals the decimal text of a number above 9. *)
Lemma phase_digit_mismatch (i : nat) (s c : string) :
  10 <= i -> Py.last_char s = Some c -> String.eqb c (Py.str i) = false.
Proof.
  intros Hi Hc. destruct (String.eqb_spec c (Py.str i)) as [E|]; [|reflexivity].
  destruct (last_char_single _ _ Hc) as [a ->].
  symmetry in E. apply str_one_char in E. lia.
Qed.

Variable model : Model.
Variable n : nat.

Lemma weights_sound_step i len w x w' :
  1 <= i -> i <= n -> phase_length model i = Ok len ->
  get_weightings_reaction i len w x = Ok w' ->
  weights_sound model n w -> weights_sound model n w'.
Proof.
  intros Hi1 Hin Hlen Hstep Hs.
  destruct (get_weightings_reaction_cases _ _ _ _ _ Hstep)
    as [[Ha ->]|[[Ha [Hc ->]]|[_ [_ ->]]]]; [| |assumption];
    intros k v Hget;
    (destruct (String.eqb_spec (id x) k) as [<-|Hne];
     [rewrite dict_get_set_eq in Hget; injection Hget as <-
     | rewrite dict_get_set_ne in Hget by assumption; now apply Hs]).
  - now left.
  - right. exists i. repeat split; auto.
    destruct (last_char_single _ _ Hc) as [a Ea].
    now apply str_one_char in Ea.
Qed.

Lemma weights_sound_phase w i w' :
  1 <= i -> i <= n ->
  get_weightings_phase model w i = Ok w' ->
  weights_sound model n w -> weights_sound model n w'.
Proof.
  intros Hi1 Hin. unfold get_weightings_phase.
  destruct (phase_length model i) as [len|e] eqn:Hlen; simpl; [|discriminate].
  intros Hrun Hs.
  apply (for_each_inv (weights_sound model n) _ _
           (fun s x s' _ Hs0 Hst => weights_sound_step i len s x s' Hi1 Hin Hlen Hst Hs0)
           w w' Hs Hrun).
Qed.

Lemma weights_sound_all w :
  for_each (get_weightings_phase model) (Py.range1 n) [] = Ok w ->
  weights_sound model n w.
Proof.
  apply (for_each_inv (weights_sound model n)).
  - intros s i s' Hi Hs Hst. apply in_seq in Hi.
    apply (weights_sound_phase s i s'); auto; lia.
  - intros k v Hget. discriminate.
Qed.

(** Inside the pass of phase [i]: entries of other phases stay, and a
    reaction of phase [i] ends with the length of phase [i]. *)
Lemma phase_pass i len rs : forall w w',
  for_each (get_weightings_reaction i len) rs w = Ok w' ->
  (forall k v, is_accounting k = false -> Py.last_char k <> Some (Py.str i) ->
               dict_get String.eqb w k = Some v -> dict_get String.eqb w' k = Some v)
  /\ (forall k, is_accounting k = false ->
                dict_get String.eqb w k = Some len -> dict_get String.eqb w' k = Some len)
  /\ (forall r, In r rs -> is_accounting (id r) = false ->
                Py.last_char (id r) = Some (Py.str i) ->
                dict_get String.eqb w' (id r) = Some len).
Proof.
  induction rs as [|x rs IH]; intros w w' Hrun; simpl in Hrun.
  - injection Hrun as <-. repeat split; auto. simpl; tauto.
  - destruct (get_weightings_reaction i len w x) as [w1|e] eqn:Hstep;
      simpl in Hrun; [|discriminate].
    destruct (IH _ _ Hrun) as [Hother [Hsame Hset]].
    pose proof (get_weightings_reaction_cases _ _ _ _ _ Hstep) as Hcases.
    split; [|split].
    + intros k v Hk Hc Hget. apply Hother; auto.
      destruct Hcases as [[Ha ->]|[[Ha [Hcx ->]]|[_ [_ ->]]]]; auto;
        rewrite dict_get_set_ne; auto; intros E; subst k; congruence.
    + intros k Hk Hget. apply Hsame; auto.
      destruct Hcases as [[Ha ->]|[[Ha [Hcx ->]]|[_ [_ ->]]]]; auto.
      * rewrite dict_get_set_ne; auto. intros E; subst k; congruence.
      * destruct (String.eqb_spec (id x) k) as [<-|Hne];
          [apply dict_get_set_eq | now rewrite dict_get_set_ne].
    + intros r [<-|Hr] Ha Hc; [|now apply Hset].
      apply Hsame; auto.
      destruct Hcases as [[Hax _]|[[_ [_ ->]]|[_ [Hcx _]]]]; try congruence.
      apply dict_get_set_eq.
Qed.

Lemma weights_complete_phase m w w' :
  get_weightings_phase model w (S m) = Ok w' ->
  weights_complete model m w -> weights_complete model (S m) w'.
Proof.
  unfold get_weightings_phase.
  destruct (phase_length model (S m)) as [len|e] eqn:Hlen; simpl; [|discriminate].
  intros Hrun Hc r j Hr Ha Hj1 Hj Hlast.
  destruct (phase_pass _ _ _ _ _ Hrun) as [Hother [_ Hset]].
  destruct (Nat.eq_dec j (S m)) as [->|Hne].
  - exists len. split; [assumption | now apply Hset].
  - destruct (Hc r j Hr Ha Hj1 ltac:(lia) Hlast) as [v [Hv Hget]].
    exists v. split; [assumption|]. apply Hother; auto.
    rewrite Hlast. intros E. injection E as E. apply str_inj in E. lia.
Qed.

Lemma weights_complete_all : forall m w,
  for_each (get_weightings_phase model) (Py.range1 m) [] = Ok w ->
  weights_complete model m w.
Proof.
  unfold Py.range1. induction m as [|m IH]; intros w Hrun.
  - intros r j _ _ Hj1 Hj. lia.
  - rewrite seq_S, for_each_app in Hrun.
    destruct (for_each (get_weightings_phase model) (seq 1 m) []) as [w0|e];
      simpl in Hrun; [|discriminate].
    destruct (get_weightings_phase model w0 (S m)) as [w1|e] eqn:Hphase;
      simpl in Hrun; [|discriminate].
    injection Hrun as <-.
    apply (weights_complete_phase m w0 w1 Hphase). now apply IH.
Qed.

End PhaseDigits.


(** C10, as the code has it.  [get_weightings] compares the single final
    character of an identifier with the decimal text of the phase index.
    Hence (1) the pass of a phase [i >= 10] matches no identifier at all;
    (2) every weight in the returned map is 0 for an accounting identifier,
    or the length of a phase [j <= 9] whose digit is the identifier's final
    character; (3) conversely a non-accounting reaction whose final character
    is the digit of a phase [j] of the model does receive the length of
    phase [j], also when the identifier ends in a two-digit phase index. *)
Theorem get_weightings_final_character `{Cobra} (model : Model) (n : nat)
    (w : Weightings) :
  check_number_of_models model = Ok n ->
  get_weightings model = Ok w ->
  (forall i s c, 10 <= i -> Py.last_char s = Some c ->
                 String.eqb c (Py.str i) = false)
  /\ (forall k v, dict_get String.eqb w k = Some v ->
        (is_accounting k = true /\ v = 0%Q)
        \/ exists j, 1 <= j /\ j <= 9 /\ j <= n
                     /\ Py.last_char k = Some (Py.str j)
                     /\ phase_length model j = Ok v)
  /\ (forall r j, In r (reactions model) -> is_accounting (id r) = false ->
        1 <= j -> j <= n -> Py.last_char (id r) = Some (Py.str j) ->
        exists v, phase_length model j = Ok v
                  /\ dict_get String.eqb w (id r) = Some v).
Proof.
  intros Hn Hrun. unfold get_weightings in Hrun. rewrite Hn in Hrun. simpl in Hrun.
  split; [exact phase_digit_mismatch|]. split.
  - exact (weights_sound_all model n w Hrun).
  - exact (weights_complete_all model n w Hrun).
Qed.

Lemma get_weightings_final_character_witness :
  check_number_of_models (Cobra := Demo.cobra 2) Demo.two_phases = Ok 2
  /\ get_weightings (H := Demo.cobra 2) Demo.two_phases = Ok Demo.two_phase_weights
  /\ (forall k v, dict_get String.eqb Demo.two_phase_weights k = Some v ->
        (is_accounting k = true /\ v = 0%Q)
        \/ exists j, 1 <= j /\ j <= 9 /\ j <= 2
                     /\ Py.last_char k = Some (Py.str j)
                     /\ phase_length Demo.two_phases j = Ok v).
Proof.
  split; [reflexivity|]. split; [reflexivity|].
  exact (proj1 (proj2 (get_weightings_final_character (H := Demo.cobra 2)
                         Demo.two_phases 2 Demo.two_phase_weights
                         eq_refl eq_refl))).
Defined.

(** C10 as written fails in its last clause: in an eleven-phase model the
    linker reaction of phase 11 is not left unweighted; its final character
    "1" matches phase 1, so it receives the length of phase 1 (2), not the
    length of phase 11 (12). *)
Lemma phase_eleven_reaction_is_weighted :
  exists w,
    get_weightings (H := Demo.cobra 11) Demo.eleven_phases = Ok w
    /\ In (Demo.linker 11 (- (1 # 12))) (reactions Demo.eleven_phases)
    /\ is_accounting (id (Demo.linker 11 (- (1 # 12)))) = false
    /\ phase_length Demo.eleven_phases 1 = Ok 2%Q
    /\ phase_length Demo.eleven_phases 11 = Ok 12%Q
    /\ dict_get String.eqb w (id (Demo.linker 11 (- (1 # 12)))) = Some 2%Q
    /\ dict_get String.eqb w (id (Demo.linker 11 (- (1 # 12)))) <> None.
Proof.
  eexists. split; [vm_compute; reflexivity|].
  split; [simpl; tauto|].
  split; [reflexivity|]. split; [reflexivity|]. split; [reflexivity|].
  split; [reflexivity | discriminate].
Qed.

(* ------------------------------------------------------------------ *)
(** ** Aggregator: the fold *)
(* ------------------------------------------------------------------ *)

Section Fold.

Lemma prefix_refl (s : string) : String.prefix s s = true.
Proof.
  induction s as [|c s IH]; simpl; [reflexivity|].
  destruct (ascii_dec c c); [assumption | congruence].
Qed.

Lemma contains_suffix (sub a : string) : Py.contains sub (a +:+ sub) = true.
Proof.
  induction a as [|c a IH].
  - destruct sub; simpl; [reflexivity|].
    change (String.prefix (String a sub) (String a sub) || Py.contains (String a sub) sub = true).
    now rewrite prefix_refl.
  - change (String.prefix sub (String c (a +:+ sub))
            || Py.contains sub (a +:+ sub) = true).
    rewrite IH. apply orb_true_r.
Qed.

Lemma dict_get_app_fresh {V : Type} (d1 d2 : list (string * V)) (k : string) :
  ~ In k (dict_keys d1) ->
  dict_get String.eqb (d1 ++ d2) k = dict_get String.eqb d2 k.
Proof.
  induction d1 as [|[k' v'] d1 IH]; simpl; intros H; [reflexivity|].
  destruct (String.eqb_spec k' k); [tauto | apply IH; tauto].
Qed.

Lemma dict_set_In {V : Type} (d : list (string * V)) (k : string) (v : V) kv :
  In kv (dict_set String.eqb d k v) -> In kv d \/ kv = (k, v).
Proof.
  induction d as [|[k' v'] d IH]; simpl.
  - intros [<-|[]]. now right.
  - destruct (String.eqb_spec k' k) as [->|Hne]; simpl.
    + intros [<-|H]; auto.
    + intros [<-|H]; auto. destruct (IH H); auto.
Qed.

Lemma NoDup_app_fresh {A : Type} (l1 l2 : list A) (x : A) :
  NoDup (l1 ++ x :: l2) -> ~ In x l1 /\ ~ In x l2.
Proof.
  intros H. apply NoDup_remove_2 in H. split; intros Hin; apply H;
    apply in_or_app; auto.
Qed.

Variable column : Series.
Hypothesis column_unique : NoDup (dict_keys column).
Hypothesis column_folded :
  forall k, In k (dict_keys column) -> Py.contains "_reverse" k = false.

(** With the rows [done] behind it the loop rebuilds the rest unchanged. *)
Lemma fold_loop_folded (rest : Series) : forall (seen : gset string) (done : Series),
  column = done ++ rest ->
  (forall k, k ∈ seen <-> In k (dict_keys done)) ->
  exists seen', for_each (fold_step column) (dict_keys rest) (seen, done)
                = Ok (seen', column).
Proof.
  induction rest as [|[k v] rest IH]; intros seen done Hcol Hseen; simpl.
  - rewrite app_nil_r in Hcol. subst done. eauto.
  - assert (Hk : In k (dict_keys column)).
    { rewrite Hcol. unfold dict_keys. rewrite map_app. apply in_or_app.
      right. now left. }
    assert (Hfresh : ~ In k (dict_keys done)).
    { pose proof column_unique as Hnd. rewrite Hcol in Hnd.
      unfold dict_keys in Hnd. rewrite map_app in Hnd. simpl in Hnd.
      now apply NoDup_app_fresh in Hnd. }
    unfold fold_step at 1. unfold reverse_suffix.
    rewrite (column_folded k Hk).
    rewrite bool_decide_eq_false_2 by (rewrite Hseen; exact Hfresh).
    assert (Hpartner : dict_contains String.eqb column (k +:+ "_reverse") = false).
    { destruct (dict_contains String.eqb column (k +:+ "_reverse")) eqn:E;
        [|reflexivity].
      apply dict_contains_In, column_folded in E.
      now rewrite contains_suffix in E. }
    rewrite Hpartner. simpl.
    assert (Hget : series_get column k = Ok v).
    { unfold series_get. rewrite Hcol, dict_get_app_fresh by assumption.
      now rewrite dict_get_first. }
    rewrite Hget. simpl. rewrite dict_set_fresh by assumption.
    apply IH.
    + now rewrite <- app_assoc.
    + intros k'. rewrite elem_of_union, elem_of_singleton, Hseen.
      unfold dict_keys. rewrite map_app, in_app_iff. simpl. intuition.
Qed.

Lemma fold_column_folded : fold_column column = Ok column.
Proof.
  unfold fold_column.
  destruct (fold_loop_folded column ∅ ([] : Series) eq_refl) as [seen' Hrun].
  - intros k. simpl. rewrite elem_of_empty. tauto.
  - rewrite Hrun. reflexivity.
Qed.

End Fold.

Lemma fold_column_unique (column tempdict : Series) :
  fold_column column = Ok tempdict -> NoDup (dict_keys tempdict).
Proof.
  unfold fold_column.
  match goal with
  | |- rbind ?c _ = _ -> _ => destruct c as [st|e] eqn:Hrun; simpl; [|discriminate]
  end.
  intros E. injection E as <-.
  refine (for_each_inv (fun st : gset string * Series => NoDup (dict_keys (snd st)))
            _ _ _ _ _ _ Hrun).
  - intros [seen d] rxn s' _ Hd. unfold fold_step.
    destruct (bool_decide _); [intros E; injection E as <-; exact Hd|].
    match goal with
    | |- rbind ?c _ = _ -> _ => destruct c as [value|e]; simpl; [|discriminate]
    end.
    intros E. injection E as <-. simpl. now apply dict_set_NoDup.
  - constructor.
Qed.

Lemma fold_fva_folded (t : Table) :
  NoDup (dict_keys t) ->
  (forall c s, In (c, s) t -> NoDup (dict_keys s)) ->
  (forall c s k, In (c, s) t -> In k (dict_keys s) ->
                 Py.contains "_reverse" k = false) ->
  fold_fva t = Ok t.
Proof.
  intros Hcols Hrows Hfolded. unfold fold_fva.
  enough (Hgen : forall rest done, t = done ++ rest ->
             for_each (fun fva2 mode =>
                match dict_get String.eqb t mode with
                | None => Raise (KeyError mode)
                | Some column =>
                    rbind (if String.eqb mode "maximum"
                           then fold_column column else fold_column column)
                          (fun tempdict => Ok (dict_set String.eqb fva2 mode tempdict))
                end) (dict_keys rest) done = Ok t)
    by (apply (Hgen t []); reflexivity).
  induction rest as [|[c s] rest IH]; intros done Ht; simpl.
  - rewrite app_nil_r in Ht. now subst.
  - assert (Hfresh : ~ In c (dict_keys done)).
    { pose proof Hcols as Hnd. rewrite Ht in Hnd. unfold dict_keys in Hnd.
      rewrite map_app in Hnd. simpl in Hnd. now apply NoDup_app_fresh in Hnd. }
    assert (Hin : In (c, s) t).
    { rewrite Ht. apply in_or_app. right. now left. }
    assert (Hget : dict_get String.eqb t c = Some s).
    { rewrite Ht at 1. rewrite dict_get_app_fresh by assumption. apply dict_get_first. }
    rewrite Hget.
    rewrite (fold_column_folded s (Hrows c s Hin) (fun k Hk => Hfolded c s k Hin Hk)).
    destruct (String.eqb c "maximum"); simpl;
      rewrite dict_set_fresh by assumption; apply IH; now rewrite <- app_assoc.
Qed.

Lemma fold_fva_unique (t t' : Table) :
  fold_fva t = Ok t' ->
  NoDup (dict_keys t') /\ forall c s, In (c, s) t' -> NoDup (dict_keys s).
Proof.
  unfold fold_fva.
  apply (for_each_inv
           (fun fva2 : Table => NoDup (dict_keys fva2)
                        /\ forall c s, In (c, s) fva2 -> NoDup (dict_keys s))).
  - intros fva2 mode fva2' _ [Hc Hs].
    destruct (dict_get String.eqb t mode) as [column|]; [|discriminate].
    assert (Hcol : forall r, (if String.eqb mode "maximum"
                              then fold_column column else fold_column column) = Ok r ->
                             NoDup (dict_keys r)).
    { intros r. destruct (String.eqb mode "maximum"); apply fold_column_unique. }
    destruct (if String.eqb mode "maximum" then fold_column column
              else fold_column column) as [tempdict|e]; simpl; [|discriminate].
    intros E. injection E as <-. split.
    + now apply dict_set_NoDup.
    + intros c s Hin. apply dict_set_In in Hin as [Hin|E]; [eauto|].
      injection E as -> ->. now apply Hcol.
  - split; [constructor | simpl; tauto].
Qed.

(** C8.  The fold leaves a table without "_reverse" keys as it is (column
    names and row labels being distinct, as in a table), every series of a
    folded table lists each identifier at most once, and folding a folded
    table that has no "_reverse" key left returns it unchanged. *)
Theorem fold_fva_idempotent (t : Table) :
  NoDup (dict_keys t) ->
  (forall c s, In (c, s) t -> NoDup (dict_keys s)) ->
  (forall c s k, In (c, s) t -> In k (dict_keys s) ->
                 Py.contains "_reverse" k = false) ->
  fold_fva t = Ok t
  /\ (forall t0 t', fold_fva t0 = Ok t' ->
        forall c s, In (c, s) t' -> NoDup (dict_keys s))
  /\ (forall t0 t', fold_fva t0 = Ok t' ->
        (forall c s k, In (c, s) t' -> In k (dict_keys s) ->
                       Py.contains "_reverse" k = false) ->
        fold_fva t' = Ok t').
Proof.
  intros Hcols Hrows Hfolded. split; [now apply fold_fva_folded|]. split.
  - intros t0 t' Hrun. now apply (fold_fva_unique t0 t').
  - intros t0 t' Hrun Hf. destruct (fold_fva_unique t0 t' Hrun) as [Hc Hs].
    now apply fold_fva_folded.
Qed.

Lemma fold_fva_idempotent_witness :
  NoDup (dict_keys Demo.folded_table)
  /\ fold_fva Demo.folded_table = Ok Demo.folded_table.
Proof.
  assert (Hcols : NoDup (dict_keys Demo.folded_table)).
  { simpl. repeat constructor; simpl; intuition discriminate. }
  assert (Hrows : forall c s, In (c, s) Demo.folded_table -> NoDup (dict_keys s)).
  { intros c s [E|[E|[]]]; injection E as <- <-; simpl;
      repeat constructor; simpl; intuition discriminate. }
  assert (Hfolded : forall c s k, In (c, s) Demo.folded_table ->
                                  In k (dict_keys s) ->
                                  Py.contains "_reverse" k = false).
  { intros c s k [E|[E|[]]]; injection E as <- <-; simpl;
      intros [<-|[<-|[]]]; reflexivity. }
  split; [exact Hcols|].
  exact (proj1 (fold_fva_idempotent Demo.folded_table Hcols Hrows Hfolded)).
Defined.

(* ------------------------------------------------------------------ *)
(** ** Aggregator: the join *)
(* ------------------------------------------------------------------ *)

Section Join.

Lemma dict_get_keys {V : Type} (d : list (string * V)) (k : string) :
  dict_get String.eqb d k = None <-> ~ In k (dict_keys d).
Proof.
  split; [|apply dict_get_None].
  induction d as [|[k' v'] d IH]; simpl; [tauto|].
  destruct (String.eqb_spec k' k); [discriminate|]. intros H [E|Hin]; [congruence|].
  now apply IH.
Qed.




End Join.




(* ------------------------------------------------------------------ *)
(** ** Weighted objective builder *)
(* ------------------------------------------------------------------ *)

Section Builder.

Lemma Var_eqb_eq (a b : Var) : Var_eqb a b = true <-> a = b.
Proof.
  unfold Var_eqb. rewrite andb_true_iff, !String.eqb_eq.
  destruct a, b; simpl. split; [intros [-> ->]; reflexivity|].
  intros E. injection E as -> ->. auto.
Qed.

Lemma Var_eqb_refl (a : Var) : Var_eqb a a = true.
Proof. now apply Var_eqb_eq. Qed.


Lemma var_dict_get_set_ne (d : list (Var * Q)) v v' x :
  v <> v' -> dict_get Var_eqb (dict_set Var_eqb d v x) v' = dict_get Var_eqb d v'.
Proof.
  intros Hne.
  assert (Hf : Var_eqb v v' = false).
  { destruct (Var_eqb v v') eqn:E; [|reflexivity]. apply Var_eqb_eq in E. congruence. }
  induction d as [|[v0 x0] d IH]; simpl.
  - now rewrite Hf.
  - destruct (Var_eqb v0 v) eqn:E; simpl.
    + apply Var_eqb_eq in E. subst v0. now rewrite Hf.
    + now rewrite IH.
Qed.

(** The lookup the loop performs is the rule of the specification. *)
Lemma first_matching_key_weight (ws : Weightings) (w : string) :
  match first_matching_key ws w with
  | Some rxn => dict_get String.eqb ws rxn
  | None => None
  end = first_match_weight ws w.
Proof.
  unfold first_matching_key.
  induction ws as [|[k x] ws IH]; simpl; [reflexivity|].
  destruct (Py.contains k w) eqn:Hk.
  - now rewrite String.eqb_refl.
  - destruct (find (fun rxn => Py.contains rxn w) (dict_keys ws)) as [rxn|] eqn:Hf;
      [|exact IH].
    apply find_some in Hf as Hrxn. destruct Hrxn as [_ Hrxn].
    destruct (String.eqb_spec k rxn) as [->|_]; [congruence | exact IH].
Qed.

Lemma first_matching_key_none (ws : Weightings) (w : string) :
  first_matching_key ws w = None <-> first_match_weight ws w = None.
Proof.
  unfold first_matching_key.
  induction ws as [|[k x] ws IH]; simpl; [tauto|].
  destruct (Py.contains k w); [split; discriminate | exact IH].
Qed.

Lemma weight_variable_run ws tempDict v log label :
  variable_label v = Ok label ->
  weight_variable ws tempDict v log
  = (Ok (dict_set Var_eqb tempDict v (coefficient_of ws v)), log ++ notices_of ws v).
Proof.
  intros Hl. unfold weight_variable, coefficient_of, notices_of, label_of,
               bind, lift, ret, raise, print, emit.
  rewrite Hl. pose proof (first_matching_key_weight ws label) as Hw.
  destruct (first_matching_key ws label) as [rxn|] eqn:Hk.
  - rewrite <- Hw.
    destruct (dict_get String.eqb ws rxn) as [x|] eqn:Hx.
    + now rewrite app_nil_r.
    + exfalso. apply find_some in Hk as [Hin _].
      apply dict_get_keys in Hx. contradiction.
  - rewrite <- Hw. reflexivity.
Qed.

Lemma weight_loop_run ws vars : forall tempDict log,
  (forall v, In v vars -> exists label, variable_label v = Ok label) ->
  mfor_each (weight_variable ws) vars tempDict log
  = (Ok (fold_left (fun d v => dict_set Var_eqb d v (coefficient_of ws v)) vars tempDict),
     log ++ flat_map (notices_of ws) vars).
Proof.
  induction vars as [|v vars IH]; intros tempDict log Hl; simpl.
  - now rewrite app_nil_r.
  - destruct (Hl v (or_introl eq_refl)) as [label Hv].
    unfold bind. rewrite (weight_variable_run _ _ _ _ _ Hv).
    rewrite IH by (intros v' Hv'; apply Hl; now right).
    now rewrite <- app_assoc.
Qed.


Context `{Cobra}.


(** What a call does once its collaborators have answered. *)
Lemma add_pfba_Weighted_run model weightings objective frac log ws m0 :
  resolve_weightings model weightings = Ok ws ->
  install_objective model objective = Ok m0 ->
  (obj_name (solver_objective m0) = pfba_objective_name ->
   add_pfba_Weighted model weightings objective frac log
   = (Raise (ValueError "The model already has a pFBA objective."), log))
  /\ (obj_name (solver_objective m0) <> pfba_objective_name ->
      forall m1, fix_objective_as_constraint m0 frac = Ok m1 ->
      (forall v, In v (flux_variables m1) -> exists label, variable_label v = Ok label) ->
      add_pfba_Weighted model weightings objective frac log
      = (Ok (set_objective m1
               {| obj_name := pfba_objective_name; direction := "min";
                  linear_coefficients :=
                    fold_left (fun d v => dict_set Var_eqb d v (coefficient_of ws v))
                              (flux_variables m1) [] |}),
         log ++ flat_map (notices_of ws) (flux_variables m1))).
Proof.
  intros Hw Hm. unfold add_pfba_Weighted, bind, lift, ret, raise.
  rewrite Hw, Hm. split.
  - intros ->. reflexivity.
  - intros Hne m1 Hfix Hl.
    destruct (String.eqb_spec (obj_name (solver_objective m0)) pfba_objective_name);
      [contradiction|].
    rewrite Hfix. simpl.
    change (flux_variables (set_objective m1 _)) with (flux_variables m1).
    now rewrite (weight_loop_run ws (flux_variables m1) [] log Hl).
Qed.

Lemma add_pfba_Weighted_names model weightings objective frac log m1 log1 :
  add_pfba_Weighted model weightings objective frac log = (Ok m1, log1) ->
  obj_name (solver_objective m1) = pfba_objective_name.
Proof.
  unfold add_pfba_Weighted, bind, lift, ret, raise.
  destruct (resolve_weightings model weightings); [|discriminate].
  destruct (install_objective model objective) as [m0|]; [|discriminate].
  destruct (String.eqb _ _); [discriminate|].
  destruct (fix_objective_as_constraint m0 frac); [|discriminate].
  match goal with
  | |- context [mfor_each ?b ?l ?s ?g] => destruct (mfor_each b l s g) as [[td|e] l']
  end; [|discriminate].
  intros E. injection E as <- _. reflexivity.
Qed.

End Builder.



(** C2, as the code has it.  After a call of the builder that returned, a
    second call on the resulting model that supplies no auxiliary objective
    raises ValueError "The model already has a pFBA objective." before
    anything else is done to the model (its weightings being supplied or
    resolvable).  A supplied objective is installed BEFORE the check, so such
    a call is checked against the objective it brings.  On every call whose
    collaborators answer, this name collision is the one condition under
    which the builder raises: it raises exactly when the objective in place
    at the check is named "_pfba_objective". *)
Theorem add_pfba_Weighted_twice `{Cobra} (model : Model)
    (weightings : option Weightings) (objective : option ObjectiveArg)
    (fraction_of_optimum : Q) (log log1 : list Event) (m1 : Model) :
  add_pfba_Weighted model weightings objective fraction_of_optimum log = (Ok m1, log1) ->
  (forall weightings' ws' fraction' log2,
     resolve_weightings m1 weightings' = Ok ws' ->
     add_pfba_Weighted m1 weightings' None fraction' log2
     = (Raise (ValueError "The model already has a pFBA objective."), log2))
  /\ (forall model' weightings' objective' fraction' log2 ws' m0,
        resolve_weightings model' weightings' = Ok ws' ->
        install_objective model' objective' = Ok m0 ->
        (obj_name (solver_objective m0) = "_pfba_objective" ->
         add_pfba_Weighted model' weightings' objective' fraction' log2
         = (Raise (ValueError "The model already has a pFBA objective."), log2))
        /\ (obj_name (solver_objective m0) <> "_pfba_objective" ->
            forall m2, fix_objective_as_constraint m0 fraction' = Ok m2 ->
            (forall v, In v (flux_variables m2) ->
                       exists label, variable_label v = Ok label) ->
            exists m' log', add_pfba_Weighted model' weightings' objective' fraction' log2
                            = (Ok m', log'))).
Proof.
  intros Hfirst. apply add_pfba_Weighted_names in Hfirst. split.
  - intros weightings' ws' fraction' log2 Hw.
    now apply (add_pfba_Weighted_run m1 weightings' None fraction' log2 ws' m1 Hw eq_refl).
  - intros model' weightings' objective' fraction' log2 ws' m0 Hw Hm.
    destruct (add_pfba_Weighted_run model' weightings' objective' fraction' log2
                ws' m0 Hw Hm) as [Hraise Hok].
    split; [exact Hraise|].
    intros Hne m2 Hfix Hl. eexists _, _. exact (Hok Hne m2 Hfix Hl).
Qed.

Lemma add_pfba_Weighted_twice_witness :
  let ws : Weightings := [("R1", 1%Q); ("R2", 2%Q)] in
  let first := add_pfba_Weighted (H := Demo.cobra 2) Demo.two_reactions (Some ws)
                 None 1 [] in
  exists m1,
    first = (Ok m1, snd first)
    /\ add_pfba_Weighted (H := Demo.cobra 2) m1 (Some ws) None 1 (snd first)
       = (Raise (ValueError "The model already has a pFBA objective."), snd first).
Proof.
  intros ws first.
  assert (Hfirst : exists m1, first = (Ok m1, snd first))
    by (eexists; vm_compute; reflexivity).
  destruct Hfirst as [m1 Hfirst]. exists m1. split; [exact Hfirst|].
  exact (proj1 (add_pfba_Weighted_twice (H := Demo.cobra 2) Demo.two_reactions
                  (Some ws) None 1 [] (snd first) m1 Hfirst)
               (Some ws) ws 1%Q (snd first) eq_refl).
Defined.

(** C2 as written fails: a second call on the same model that brings an
    objective (a reaction identifier, as [pfba_Weighted] passes it, or an
    objective object) raises nothing, because that objective replaces the
    pFBA objective before the name is checked. *)
Lemma second_call_with_objective_returns :
  let ws : Weightings := [("R1", 1%Q); ("R2", 2%Q)] in
  let growth := ObjObject Demo.start_objective in
  exists m1 log1 m2 log2 m3 log3,
    add_pfba_Weighted (H := Demo.cobra 2) Demo.two_reactions (Some ws)
      (Some (ObjReaction "R1")) 1 [] = (Ok m1, log1)
    /\ obj_name (solver_objective m1) = "_pfba_objective"
    /\ add_pfba_Weighted (H := Demo.cobra 2) m1 (Some ws)
         (Some (ObjReaction "R1")) 1 log1 = (Ok m2, log2)
    /\ add_pfba_Weighted (H := Demo.cobra 2) m1 (Some ws) (Some growth) 1 log1
       = (Ok m3, log3).
Proof.
  intros ws growth. eexists _, _, _, _, _, _.
  split; [vm_compute; reflexivity|].
  split; [reflexivity|].
  split; vm_compute; reflexivity.
Qed.

(* ------------------------------------------------------------------ *)
(** ** Variability driver *)
(* ------------------------------------------------------------------ *)

Section Driver.

Lemma mfor_each_pure {A S : Type} (body : S -> A -> M S) (g : S -> A -> S)
    (ev : A -> list Event) :
  (forall s x log, body s x log = (Ok (g s x), log ++ ev x)) ->
  forall l s log,
    mfor_each body l s log = (Ok (fold_left g l s), log ++ flat_map ev l).
Proof.
  intros Hbody. induction l as [|x l IH]; intros s log; simpl.
  - now rewrite app_nil_r.
  - unfold bind. rewrite Hbody, IH. now rewrite <- app_assoc.
Qed.

Lemma Permutation_concat {A : Type} (l1 l2 : list (list A)) :
  Permutation l1 l2 -> Permutation (concat l1) (concat l2).
Proof.
  induction 1; simpl.
  - constructor.
  - now apply Permutation_app_head.
  - rewrite !app_assoc. apply Permutation_app_tail, Permutation_app_comm.
  - eapply perm_trans; eauto.
Qed.

Lemma concat_chunks_upto {A : Type} (size : nat) : forall (fuel : nat) (l : list A),
  1 <= size -> length l <= fuel -> concat (chunks_upto fuel size l) = l.
Proof.
  induction fuel as [|fuel IH]; intros l Hsize Hlen.
  - destruct l; [reflexivity | simpl in Hlen; lia].
  - destruct l as [|x l]; [reflexivity|].
    cbn [chunks_upto concat]. rewrite IH; [apply firstn_skipn | assumption |].
    rewrite length_skipn. simpl length in *. lia.
Qed.

Lemma concat_chunks {A : Type} (size : nat) (l : list A) :
  1 <= size -> concat (chunks size l) = l.
Proof. intros Hsize. unfold chunks. now apply concat_chunks_upto. Qed.

Lemma series_update_keys s label v : dict_keys (series_update s label v) = dict_keys s.
Proof.
  unfold series_update, dict_keys. rewrite map_map. apply map_ext.
  intros [k x]. simpl. now destruct (String.eqb k label).
Qed.

Lemma series_at_set_present s label v :
  In label (dict_keys s) -> series_at_set s label v = series_update s label v.
Proof.
  intros Hin. unfold series_at_set.
  now rewrite (proj2 (dict_contains_In s label) Hin).
Qed.

Lemma series_update_comm s i a j b :
  i <> j \/ a = b ->
  series_update (series_update s i a) j b = series_update (series_update s j b) i a.
Proof.
  intros H. unfold series_update. rewrite !map_map. apply map_ext.
  intros [k x]. simpl.
  destruct (String.eqb k i) eqn:Ei, (String.eqb k j) eqn:Ej; simpl;
    rewrite ?Ei, ?Ej; try reflexivity.
  apply String.eqb_eq in Ei, Ej. destruct H as [H|H]; [congruence | now rewrite H].
Qed.

Lemma frame_update_labelled ids t label column v :
  labelled ids t -> labelled ids (frame_update t label column v).
Proof.
  intros Hl cs Hin. unfold frame_update in Hin.
  apply in_map_iff in Hin as [[c s] [<- Hin]]. simpl.
  specialize (Hl _ Hin). simpl in Hl.
  destruct (String.eqb c column); simpl; [now rewrite series_update_keys | assumption].
Qed.

Lemma frame_at_set_present ids t label column v :
  labelled ids t -> In label ids ->
  frame_at_set t label column v = frame_update t label column v.
Proof.
  intros Hl Hin. unfold frame_at_set, frame_update. apply map_ext_in.
  intros [c s] Hcs. simpl. destruct (String.eqb c column); [|reflexivity].
  rewrite series_at_set_present; [reflexivity|].
  specialize (Hl _ Hcs). simpl in Hl. now rewrite Hl.
Qed.

Lemma frame_update_comm t column i a j b :
  i <> j \/ a = b ->
  frame_update (frame_update t i column a) j column b
  = frame_update (frame_update t j column b) i column a.
Proof.
  intros H. unfold frame_update. rewrite !map_map. apply map_ext.
  intros [c s]. simpl. destruct (String.eqb c column) eqn:E; simpl; rewrite E; simpl.
  - now rewrite series_update_comm.
  - reflexivity.
Qed.

Variable column : string.
Variable value_of : string -> Q.

Lemma fold_write_update ids (results : list (string * Q)) : forall t,
  labelled ids t -> (forall r, In r results -> In (fst r) ids) ->
  fold_left (write_result column) results t
  = fold_left (update_result column) results t.
Proof.
  induction results as [|r results IH]; intros t Hl Hin; simpl; [reflexivity|].
  unfold write_result at 2, update_result at 2.
  rewrite (frame_at_set_present ids) by (auto; apply Hin; now left).
  apply IH; [now apply frame_update_labelled | intros r' Hr'; apply Hin; now right].
Qed.

(** Results that carry the value of their own label can be written in any
    order. *)
Lemma fold_update_perm (l1 l2 : list (string * Q)) :
  Permutation l1 l2 ->
  (forall r, In r l1 -> snd r = value_of (fst r)) ->
  forall t, fold_left (update_result column) l1 t
            = fold_left (update_result column) l2 t.
Proof.
  induction 1 as [|x l1 l2 Hp IH|x y l|l1 l2 l3 Hp1 IH1 Hp2 IH2]; intros Hf t; simpl.
  - reflexivity.
  - apply IH. intros r Hr. apply Hf. now right.
  - f_equal. unfold update_result. apply frame_update_comm.
    destruct (String.eqb_spec (fst y) (fst x)) as [E|Hne]; [right | now left].
    rewrite (Hf y (or_introl eq_refl)), (Hf x (or_intror (or_introl eq_refl))).
    now rewrite E.
  - rewrite IH1 by assumption. apply IH2.
    intros r Hr. apply Hf. apply (Permutation_in r (Permutation_sym Hp1) Hr).
Qed.

End Driver.

Section DriverRuns.
Context `{Cobra}.

Lemma fva_results_labels model loopless sense ids r :
  In r (map (fva_result_of model loopless sense) ids) ->
  In (fst r) ids /\ snd r = _fva_step model loopless sense (fst r).
Proof.
  intros Hin. apply in_map_iff in Hin as [i [<- Hi]]. simpl. auto.
Qed.

(** Either path of one direction writes the same table; the pool never
    gets a chunk size below 1. *)
Lemma fva_direction_run model loopless (p : Z) ids t what log :
  (p <= Z.of_nat (length ids))%Z -> labelled ids t ->
  exists events,
    fva_direction model loopless p ids t what log
    = (Ok (fva_written model loopless ids t what), log ++ events).
Proof.
  intros Hp Hl. unfold fva_direction, fva_written.
  set (sense := Py.slice_to 3 what).
  set (results := map (fva_result_of model loopless sense) ids).
  assert (Hres : forall r, In r results -> In (fst r) ids).
  { intros r Hr. now apply (fva_results_labels model loopless sense ids r). }
  destruct (1 <? p)%Z eqn:Hpar.
  - apply Z.ltb_lt in Hpar.
    assert (Hsize : 1 <= Z.to_nat (Z.of_nat (length ids) / p)).
    { assert (0 < Z.of_nat (length ids) / p)%Z by (apply Z.div_str_pos; lia). lia. }
    destruct (Nat.eqb_spec (Z.to_nat (Z.of_nat (length ids) / p)) 0) as [E|_]; [lia|].
    set (arrived := concat (imap_unordered (chunks _ results))).
    assert (Hperm : Permutation arrived results).
    { unfold arrived. rewrite <- (concat_chunks _ results Hsize) at 2.
      apply Permutation_concat, imap_unordered_complete. }
    eexists.
    rewrite (mfor_each_pure _ (write_result what)
               (fun r => [Solve (fst r); Print (fst r)])).
    + rewrite (fold_write_update what ids arrived t Hl).
      * rewrite (fold_update_perm what (_fva_step model loopless sense)
                   arrived results Hperm); [reflexivity|].
        intros r Hr. apply (Permutation_in r Hperm) in Hr.
        now apply (fva_results_labels model loopless sense ids r).
      * intros r Hr. apply Hres. apply (Permutation_in r Hperm Hr).
    + intros s x l. unfold bind, print, emit, ret. now rewrite <- app_assoc.
  - eexists.
    rewrite (mfor_each_pure _ (write_result what) (fun r => [Solve (fst r)])).
    + now rewrite (fold_write_update what ids results t Hl Hres).
    + intros s x l. reflexivity.
Qed.

Lemma fva_written_labelled model loopless ids t what :
  labelled ids t -> labelled ids (fva_written model loopless ids t what).
Proof.
  unfold fva_written. generalize (map (fva_result_of model loopless (Py.slice_to 3 what)) ids).
  intros results. revert t. induction results as [|r results IH]; intros t Hl; simpl.
  - assumption.
  - apply IH. now apply frame_update_labelled.
Qed.

Lemma zeros_labelled ids :
  labelled ids [("minimum", zeros ids); ("maximum", zeros ids)].
Proof.
  assert (Hz : dict_keys (zeros ids) = ids).
  { unfold zeros, dict_keys. rewrite map_map. simpl. apply map_id. }
  intros cs [<-|[<-|[]]]; exact Hz.
Qed.

(** Both directions, for any process count not above the number of
    reactions. *)
Lemma fva_directions_run model loopless (p : Z) ids log :
  (p <= Z.of_nat (length ids))%Z ->
  exists events,
    mfor_each (fva_direction model loopless p ids) ["minimum"; "maximum"]
              [("minimum", zeros ids); ("maximum", zeros ids)] log
    = (Ok (fva_written model loopless ids
             (fva_written model loopless ids
                [("minimum", zeros ids); ("maximum", zeros ids)] "minimum")
             "maximum"),
       log ++ events).
Proof.
  intros Hp. simpl. unfold bind.
  destruct (fva_direction_run model loopless p ids _ "minimum" log Hp
              (zeros_labelled ids)) as [ev1 ->].
  destruct (fva_direction_run model loopless p ids _ "maximum" (log ++ ev1) Hp
              (fva_written_labelled model loopless ids _ "minimum" (zeros_labelled ids)))
    as [ev2 ->].
  exists (ev1 ++ ev2). unfold ret. now rewrite app_assoc.
Qed.

Lemma load_global_configuration log :
  load_global "configuration" log = (Raise (NameError "configuration"), log).
Proof. reflexivity. Qed.

Lemma load_global_add_pfba log :
  load_global "add_pfba" log = (Raise (NameError "add_pfba"), log).
Proof. reflexivity. Qed.

End DriverRuns.

(** C3.  For every model, reaction subset, loopless flag, fraction, optional
    pFBA factor and parallelism degree K >= 1, the value returned by
    [flux_variability_analysis] with K processes (a table of minimum and
    maximum per listed reaction, or the exception raised) is the one returned
    with 1 process, whatever order the pool hands the chunks back in and
    whether or not K divides the number of reactions (the parallel path also
    prints each identifier, which the returned table does not show).  The
    solver step is a function of the model snapshot, the flags and the
    reaction. *)
Theorem flux_variability_analysis_degree_independent `{Cobra} (model : Model)
    (reaction_list : option (list string)) (loopless : bool)
    (fraction_of_optimum : Q) (pfba_factor : option Q) (K : Z) (log : list Event) :
  (1 <= K)%Z ->
  fst (flux_variability_analysis model reaction_list loopless fraction_of_optimum
         pfba_factor (Some K) log)
  = fst (flux_variability_analysis model reaction_list loopless fraction_of_optimum
           pfba_factor (Some 1%Z) log).
Proof.
  intros HK. unfold flux_variability_analysis, bind, lift, ret, emit.
  destruct (resolve_reaction_ids model reaction_list) as [ids|e]; [|reflexivity].
  destruct (slim_optimize model) as [value|e]; [|reflexivity].
  destruct pfba_factor as [factor|].
  - destruct (Py.Qltb factor 1); unfold warn, emit; rewrite load_global_add_pfba;
      reflexivity.
  - match goal with
    | |- fst (mfor_each (fva_direction ?m _ ?p1 _) _ _ ?l1)
         = fst (mfor_each (fva_direction _ _ ?p2 _) _ _ _) =>
        destruct (fva_directions_run m loopless p1 ids l1 ltac:(lia)) as [ev1 ->];
        destruct (fva_directions_run m loopless p2 ids l1 ltac:(lia)) as [ev2 ->]
    end.
    reflexivity.
Qed.

Lemma flux_variability_analysis_degree_independent_witness :
  (1 <= 2)%Z
  /\ fst (flux_variability_analysis (H := Demo.cobra 2) Demo.two_reactions None false
            1 None (Some 2%Z) [])
     = fst (flux_variability_analysis (H := Demo.cobra 2) Demo.two_reactions None false
              1 None (Some 1%Z) []).
Proof.
  split; [lia|].
  apply (flux_variability_analysis_degree_independent (H := Demo.cobra 2)
           Demo.two_reactions None false 1 None 2 []).
  lia.
Defined.

(** C9.  Called without [processes], [flux_variability_analysis] reads the
    free name [configuration], which is bound neither at module level nor as
    a builtin: the call ends in NameError with nothing logged, hence before
    the baseline optimisation and every per-reaction step.  (With an explicit
    reaction list naming an unknown reaction, the lookup error of that list
    comes first.) *)
Theorem flux_variability_analysis_processes_omitted `{Cobra} (model : Model)
    (loopless : bool) (fraction_of_optimum : Q) (pfba_factor : option Q)
    (log : list Event) :
  flux_variability_analysis model None loopless fraction_of_optimum pfba_factor
    None log
  = (Raise (NameError "configuration"), log)
  /\ (forall l,
        flux_variability_analysis model (Some l) loopless fraction_of_optimum
          pfba_factor None log
        = (match get_by_any model l with
           | Ok _ => Raise (NameError "configuration")
           | Raise e => Raise e
           end, log))
  /\ existsb (String.eqb "configuration") (module_globals ++ builtins) = false.
Proof.
  split; [reflexivity|]. split; [|reflexivity].
  intros l. unfold flux_variability_analysis, bind, lift, resolve_reaction_ids.
  destruct (get_by_any model l); reflexivity.
Qed.

(** C6: what the code does.  With a pFBA factor below 1, an explicit process
    count, a resolvable reaction list and a feasible baseline, the warning is
    emitted, and the very next step reads the free name [add_pfba], which the
    module never binds: the call ends in NameError and no variability result
    is computed. *)
Theorem flux_variability_analysis_low_pfba_factor `{Cobra} (model : Model)
    (reaction_list : option (list string)) (loopless : bool)
    (fraction_of_optimum factor : Q) (p : Z) (log : list Event)
    (ids : list string) (value : Q) :
  resolve_reaction_ids model reaction_list = Ok ids ->
  slim_optimize model = Ok value ->
  (factor < 1)%Q ->
  flux_variability_analysis model reaction_list loopless fraction_of_optimum
    (Some factor) (Some p) log
  = (Raise (NameError "add_pfba"),
     log ++ [Solve "baseline";
             Warn "The 'pfba_factor' should be larger or equal to 1." "UserWarning"])
  /\ existsb (String.eqb "add_pfba") (module_globals ++ builtins) = false.
Proof.
  intros Hids Hopt Hlt. split; [|reflexivity].
  unfold flux_variability_analysis, bind, lift, ret, emit, warn.
  rewrite Hids, Hopt. rewrite (proj2 (Qltb_lt factor 1) Hlt). unfold emit.
  rewrite load_global_add_pfba. now rewrite <- app_assoc.
Qed.

Lemma flux_variability_analysis_low_pfba_factor_witness :
  resolve_reaction_ids Demo.two_reactions None = Ok ["R1"; "R2"]
  /\ (1 # 2 < 1)%Q
  /\ flux_variability_analysis (H := Demo.cobra 2) Demo.two_reactions None false 1
       (Some (1 # 2)%Q) (Some 1%Z) []
     = (Raise (NameError "add_pfba"),
        [] ++ [Solve "baseline";
               Warn "The 'pfba_factor' should be larger or equal to 1." "UserWarning"]).
Proof.
  split; [reflexivity|]. split; [reflexivity|].
  exact (proj1 (flux_variability_analysis_low_pfba_factor (H := Demo.cobra 2)
                  Demo.two_reactions None false 1 (1 # 2)%Q 1 [] ["R1"; "R2"] 1%Q
                  eq_refl eq_refl eq_refl)).
Defined.

(* ================================================================== *)
(** * Further properties *)
(* ================================================================== *)

(** ** Irreversibility splitter: shape and origin of the result *)

Section SplitterShape.

Lemma find_id_present (rs : list Reaction) (i : string) :
  In i (map id rs) -> exists r, find (fun x => String.eqb (id x) i) rs = Some r
                                /\ In r rs /\ id r = i.
Proof.
  intros Hin. destruct (find (fun x => String.eqb (id x) i) rs) as [r|] eqn:E.
  - apply find_some in E as [Hr Hi]. apply String.eqb_eq in Hi. eauto.
  - apply in_map_iff in Hin as [x [Hx Hin]].
    apply (find_none _ _ E) in Hin. rewrite Hx, String.eqb_refl in Hin. discriminate.
Qed.

Lemma update_by_id_app (l1 l2 : list Reaction) i f :
  In i (map id l1) -> update_by_id (l1 ++ l2) i f = update_by_id l1 i f ++ l2.
Proof.
  induction l1 as [|x l1 IH]; simpl; [tauto|]. intros Hin.
  destruct (String.eqb_spec (id x) i) as [E|Hne]; [reflexivity|].
  rewrite IH; [reflexivity|]. destruct Hin; [contradiction | assumption].
Qed.

Lemma rev2irrev_step_shape m exp_model added RXN :
  In (id RXN) (map id (reactions m)) ->
  split_shape m exp_model added ->
  exists exp_model' added',
    rev2irrev_step exp_model RXN = Ok exp_model'
    /\ split_shape m exp_model' added'.
Proof.
  intros Hid (Ho & Hc & Hf & (base & Hbase & Hids) & Hadd).
  assert (Hin : In (id RXN) (map id (reactions exp_model))).
  { rewrite Hbase, map_app. apply in_or_app. left. now rewrite Hids. }
  destruct (find_id_present _ _ Hin) as [rxn [Hfind [Hrxn Hrid]]].
  unfold rev2irrev_step, get_by_id. rewrite Hfind. simpl.
  destruct (Py.Qltb (lower_bound rxn) 0) eqn:Hlt.
  - apply Qltb_lt in Hlt.
    assert (Hupd : update_by_id (reactions exp_model) (id RXN)
                     (fun r => set_lower_bound r 0)
                   = update_by_id base (id RXN) (fun r => set_lower_bound r 0) ++ added).
    { rewrite Hbase. apply update_by_id_app. now rewrite Hids. }
    assert (Hbase' : map id (update_by_id base (id RXN) (fun r => set_lower_bound r 0))
                     = map id (reactions m)).
    { rewrite update_by_id_ids by reflexivity. exact Hids. }
    unfold add_reaction. cbn [reactions set_reactions id set_upper_bound set_id].
    destruct (has_id _ _).
    + eexists _, added. split; [reflexivity|].
      split; [exact Ho|]. split; [exact Hc|]. split; [exact Hf|].
      split; [|exact Hadd].
      exists (update_by_id base (id RXN) (fun r => set_lower_bound r 0)).
      split; [exact Hupd | exact Hbase'].
    + eexists _, (added ++ [_]). split; [reflexivity|].
      split; [exact Ho|]. split; [exact Hc|]. split; [exact Hf|]. split.
      * exists (update_by_id base (id RXN) (fun r => set_lower_bound r 0)).
        split; [|exact Hbase']. cbn [reactions]. rewrite Hupd. now rewrite app_assoc.
      * intros a Ha. apply in_app_or in Ha as [Ha|[<-|[]]]; [now apply Hadd|].
        cbn. split; [reflexivity|]. split; [exact Hlt|].
        rewrite Hrid. apply in_map_iff in Hid as [r [Hr Hin']].
        exists r. split; [assumption | now rewrite Hr].
  - eexists exp_model, added. split; [reflexivity|].
    split; [exact Ho|]. split; [exact Hc|]. split; [exact Hf|].
    split; [|exact Hadd]. exists base. auto.
Qed.

Lemma rev2irrev_loop_shape m todo : forall exp_model added,
  (forall r, In r todo -> In (id r) (map id (reactions m))) ->
  split_shape m exp_model added ->
  exists out added',
    for_each rev2irrev_step todo exp_model = Ok out /\ split_shape m out added'.
Proof.
  induction todo as [|x todo IH]; intros exp_model added Hids Hshape; simpl.
  - eauto.
  - destruct (rev2irrev_step_shape m exp_model added x (Hids x (or_introl eq_refl)) Hshape)
      as [exp' [added' [-> Hshape']]].
    simpl. apply (IH exp' added'); [|assumption].
    intros r Hr. apply Hids. now right.
Qed.

End SplitterShape.


Section SplitterOrigin.

Lemma NoDup_id_inj (rs : list Reaction) (a b : Reaction) :
  NoDup (map id rs) -> In a rs -> In b rs -> id a = id b -> a = b.
Proof.
  induction rs as [|x rs IH]; simpl; [tauto|]. intros Hnd Ha Hb E.
  apply NoDup_cons_iff in Hnd as [Hx Hnd].
  destruct Ha as [->|Ha], Hb as [->|Hb]; auto.
  - exfalso. apply Hx. rewrite E. now apply in_map.
  - exfalso. apply Hx. rewrite <- E. now apply in_map.
Qed.

Lemma update_by_id_In (rs : list Reaction) i f y :
  NoDup (map id rs) -> In y (update_by_id rs i f) ->
  (In y rs /\ id y <> i) \/ (exists r, In r rs /\ id r = i /\ y = f r).
Proof.
  induction rs as [|x rs IH]; simpl; [tauto|]. intros Hnd Hy.
  apply NoDup_cons_iff in Hnd as [Hx Hnd].
  destruct (String.eqb_spec (id x) i) as [E|Hne].
  - destruct Hy as [<-|Hy].
    + right. exists x. auto.
    + left. split; [now right|]. intros E'. apply Hx. rewrite E, <- E'. now apply in_map.
  - destruct Hy as [<-|Hy].
    + left. auto.
    + destruct (IH Hnd Hy) as [[Hin Hid]|[r [Hr [Hid ->]]]].
      * left. auto.
      * right. exists r. auto.
Qed.

Lemma split_origin_next done x todo y :
  split_origin done (x :: todo) y -> y <> x -> split_origin (done ++ [x]) todo y.
Proof.
  intros [[->|Hy]|[r [Hr H]]] Hne.
  - contradiction.
  - now left.
  - right. exists r. split; [apply in_or_app; now left | exact H].
Qed.

Lemma rev2irrev_step_origin rs done x todo exp_model exp_model' :
  NoDup (map id rs) ->
  split_inv rs done (x :: todo) exp_model ->
  (forall y, In y (reactions exp_model) -> split_origin done (x :: todo) y) ->
  rev2irrev_step exp_model x = Ok exp_model' ->
  forall y, In y (reactions exp_model') -> split_origin (done ++ [x]) todo y.
Proof.
  intros Hnd Hinv Horigin.
  pose proof (inv_nodup _ _ _ _ Hinv) as Ind.
  assert (Hx : In x (reactions exp_model))
    by (apply (inv_todo _ _ _ _ Hinv); now left).
  assert (Hlast : In x (done ++ [x])) by (apply in_or_app; right; now left).
  unfold rev2irrev_step, get_by_id. rewrite (find_by_id _ _ Ind Hx). simpl.
  destruct (Py.Qltb (lower_bound x) 0) eqn:Hlt; intros E; injection E as <-.
  - apply Qltb_lt in Hlt.
    assert (Hupd : forall y,
               In y (update_by_id (reactions exp_model) (id x)
                       (fun r => set_lower_bound r 0)) ->
               split_origin (done ++ [x]) todo y).
    { intros y Hy. apply (update_by_id_In _ _ _ _ Ind) in Hy
        as [[Hin Hid]|[r [Hr [Hid ->]]]].
      - apply split_origin_next; [now apply Horigin | congruence].
      - rewrite (NoDup_id_inj _ r x Ind Hr Hx Hid).
        right. exists x. split; [exact Hlast|]. right. split; [exact Hlt | now left]. }
    intros y Hy. unfold add_reaction in Hy. cbn [reactions set_reactions] in Hy.
    destruct (has_id _ _); cbn [reactions set_reactions] in Hy; [now apply Hupd|].
    apply in_app_or in Hy as [Hy|[<-|[]]]; [now apply Hupd|].
    right. exists x. split; [exact Hlast|]. right. split; [exact Hlt | now right].
  - apply Qltb_nlt in Hlt. intros y Hy.
    destruct (Horigin y Hy) as [[<-|Hin]|[r [Hr H]]].
    + right. exists x. split; [exact Hlast|]. left. auto.
    + now left.
    + right. exists r. split; [apply in_or_app; now left | exact H].
Qed.

Lemma rev2irrev_loop_origin rs todo : forall done exp_model out,
  rs = done ++ todo -> NoDup (map id rs) ->
  split_inv rs done todo exp_model ->
  (forall y, In y (reactions exp_model) -> split_origin done todo y) ->
  for_each rev2irrev_step todo exp_model = Ok out ->
  forall y, In y (reactions out) -> split_origin rs [] y.
Proof.
  induction todo as [|x todo IH]; intros done exp_model out Hrs Hnd Hinv Horigin Hrun.
  - simpl in Hrun. injection Hrun as <-. rewrite app_nil_r in Hrs. now subst.
  - destruct (rev2irrev_step_inv rs done x todo exp_model Hrs Hnd Hinv)
      as [exp' [Hstep Hinv']].
    simpl in Hrun. rewrite Hstep in Hrun. simpl in Hrun.
    apply (IH (done ++ [x]) exp' out); auto.
    + now rewrite <- app_assoc.
    + now apply (rev2irrev_step_origin rs done x todo exp_model exp').
Qed.

Lemma rev2irrev_origin (m out : Model) :
  NoDup (map id (reactions m)) -> rev2irrev m = Ok out ->
  forall y, In y (reactions out) -> split_origin (reactions m) [] y.
Proof.
  intros Hnd Hrun.
  apply (rev2irrev_loop_origin (reactions m) (reactions m) [] m out eq_refl Hnd
           (split_inv_start m Hnd)); [|exact Hrun].
  intros y Hy. now left.
Qed.

End SplitterOrigin.

(** X2.  For a model with pairwise distinct reaction identifiers, the split
    model contains nothing else than: the input reactions with a non-negative
    lower bound, unchanged; the input reactions with a negative lower bound,
    with that bound set to 0; and the copies of the latter renamed with
    "_reverse" and capped at 0. *)
Theorem rev2irrev_nothing_else (m out : Model) :
  NoDup (map id (reactions m)) ->
  rev2irrev m = Ok out ->
  forall y, In y (reactions out) ->
    exists r, In r (reactions m)
              /\ ((~ (lower_bound r < 0)%Q /\ y = r)
                  \/ ((lower_bound r < 0)%Q
                      /\ (y = set_lower_bound r 0
                          \/ y = {| id := id r +:+ "_reverse";
                                    lower_bound := lower_bound r;
                                    upper_bound := 0;
                                    metabolites := metabolites r |}))).
Proof.
  intros Hnd Hrun y Hy.
  destruct (rev2irrev_origin m out Hnd Hrun y Hy) as [[]|H]. exact H.
Qed.

Lemma rev2irrev_nothing_else_witness :
  NoDup (map id (reactions Demo.two_reactions))
  /\ exists out, rev2irrev Demo.two_reactions = Ok out
       /\ forall y, In y (reactions out) ->
            exists r, In r (reactions Demo.two_reactions)
                      /\ ((~ (lower_bound r < 0)%Q /\ y = r)
                          \/ ((lower_bound r < 0)%Q
                              /\ (y = set_lower_bound r 0
                                  \/ y = {| id := id r +:+ "_reverse";
                                            lower_bound := lower_bound r;
                                            upper_bound := 0;
                                            metabolites := metabolites r |}))).
Proof.
  assert (Hnd : NoDup (map id (reactions Demo.two_reactions))).
  { simpl. repeat constructor; simpl; intuition discriminate. }
  split; [exact Hnd|].
  destruct (rev2irrev Demo.two_reactions) as [out|e] eqn:Hrun.
  - exists out. split; [reflexivity|].
    exact (rev2irrev_nothing_else Demo.two_reactions out Hnd Hrun).
  - exfalso. vm_compute in Hrun. discriminate.
Defined.

(** X3.  The docstring's promise: for a model with pairwise distinct
    reaction identifiers, every reaction of the split model is irreversible,
    that is, its lower bound is not negative or its upper bound is 0. *)
Theorem rev2irrev_only_irreversible (m out : Model) :
  NoDup (map id (reactions m)) ->
  rev2irrev m = Ok out ->
  forall y, In y (reactions out) ->
    ~ (lower_bound y < 0)%Q \/ upper_bound y = 0%Q.
Proof.
  intros Hnd Hrun y Hy.
  destruct (rev2irrev_origin m out Hnd Hrun y Hy)
    as [[]|[r [_ [[Hr ->]|[_ [->| ->]]]]]].
  - now left.
  - left. simpl. apply Qlt_irrefl.
  - now right.
Qed.

Lemma rev2irrev_only_irreversible_witness :
  NoDup (map id (reactions Demo.two_reactions))
  /\ exists out, rev2irrev Demo.two_reactions = Ok out
       /\ forall y, In y (reactions out) ->
            ~ (lower_bound y < 0)%Q \/ upper_bound y = 0%Q.
Proof.
  assert (Hnd : NoDup (map id (reactions Demo.two_reactions))).
  { simpl. repeat constructor; simpl; intuition discriminate. }
  split; [exact Hnd|].
  destruct (rev2irrev Demo.two_reactions) as [out|e] eqn:Hrun.
  - exists out. split; [reflexivity|].
    exact (rev2irrev_only_irreversible Demo.two_reactions out Hnd Hrun).
  - exfalso. vm_compute in Hrun. discriminate.
Defined.

(* ------------------------------------------------------------------ *)
(** ** Weighting generator: keys, failures, reaction order *)
(* ------------------------------------------------------------------ *)

Section WeightingMore.

Lemma for_each_total {A S : Type} (body : S -> A -> Result S) (l : list A) :
  (forall s x, In x l -> exists s', body s x = Ok s') ->
  forall s, exists s', for_each body l s = Ok s'.
Proof.
  induction l as [|x l IH]; intros Hbody s; simpl; [eauto|].
  destruct (Hbody s x (or_introl eq_refl)) as [s1 ->]. simpl.
  apply IH. intros s0 y Hy. apply Hbody. now right.
Qed.

Lemma for_each_ok_each {A S : Type} (body : S -> A -> Result S) (l : list A) :
  forall s s', for_each body l s = Ok s' ->
  forall x, In x l -> exists s1 s2, body s1 x = Ok s2.
Proof.
  induction l as [|y l IH]; intros s s' Hrun x Hx; simpl in *; [tauto|].
  destruct (body s y) as [s1|e] eqn:E; simpl in Hrun; [|discriminate].
  destruct Hx as [<-|Hx]; [eauto | exact (IH _ _ Hrun x Hx)].
Qed.

Lemma last_char_None (s : string) : Py.last_char s = None <-> s = EmptyString.
Proof.
  split; [|intros ->; reflexivity].
  induction s as [|a s IH]; [reflexivity|].
  destruct s as [|b s]; [discriminate|]. intros H.
  change (Py.last_char (String b s) = None) in H. apply IH in H. discriminate.
Qed.

Lemma get_weightings_reaction_total i len w r :
  (is_accounting (id r) = false -> id r <> EmptyString) ->
  exists w', get_weightings_reaction i len w r = Ok w'.
Proof.
  intros Hid. unfold get_weightings_reaction.
  destruct (is_accounting (id r)); [eauto|].
  destruct (Py.last_char (id r)) as [c|] eqn:Hc.
  - destruct (String.eqb c (Py.str i)); eauto.
  - apply last_char_None in Hc. now destruct (Hid eq_refl).
Qed.

Lemma get_weightings_reaction_ok i len w r w' :
  get_weightings_reaction i len w r = Ok w' ->
  is_accounting (id r) = false -> id r <> EmptyString.
Proof.
  unfold get_weightings_reaction. intros Hrun Ha E. rewrite Ha, E in Hrun.
  discriminate.
Qed.

(** The keys written so far are identifiers of the model, each once. *)
Lemma get_weightings_reaction_keys (rs : list Reaction) i len w r w' :
  In r rs ->
  get_weightings_reaction i len w r = Ok w' ->
  NoDup (dict_keys w) /\ incl (dict_keys w) (map id rs) ->
  NoDup (dict_keys w') /\ incl (dict_keys w') (map id rs).
Proof.
  intros Hr Hstep [Hnd Hincl].
  assert (Hset : forall x, NoDup (dict_keys (dict_set String.eqb w (id r) x))
                           /\ incl (dict_keys (dict_set String.eqb w (id r) x))
                                   (map id rs)).
  { intros x. split; [now apply dict_set_NoDup|].
    rewrite dict_set_keys. destruct (dict_contains String.eqb w (id r)); [exact Hincl|].
    intros k Hk. apply in_app_or in Hk as [Hk|[<-|[]]]; [now apply Hincl|].
    now apply in_map. }
  destruct (get_weightings_reaction_cases _ _ _ _ _ Hstep)
    as [[_ ->]|[[_ [_ ->]]|[_ [_ ->]]]]; auto.
Qed.

Lemma get_weightings_phases_keys model l w :
  for_each (get_weightings_phase model) l [] = Ok w ->
  NoDup (dict_keys w) /\ incl (dict_keys w) (map id (reactions model)).
Proof.
  apply (for_each_inv
           (fun w : Weightings => NoDup (dict_keys w)
                                  /\ incl (dict_keys w) (map id (reactions model)))).
  - intros w0 i w1 _ Hw0. unfold get_weightings_phase.
    destruct (phase_length model i) as [len|e]; simpl; [|discriminate].
    apply (for_each_inv
             (fun w : Weightings => NoDup (dict_keys w)
                                    /\ incl (dict_keys w) (map id (reactions model))));
      [|exact Hw0].
    intros s r s' Hr Hs Hstep.
    exact (get_weightings_reaction_keys (reactions model) i len s r s' Hr Hstep Hs).
  - split; [constructor | intros k []].
Qed.

Lemma accounting_all model n w :
  1 <= n ->
  for_each (get_weightings_phase model) (Py.range1 n) [] = Ok w ->
  forall r, In r (reactions model) -> is_accounting (id r) = true ->
            dict_get String.eqb w (id r) = Some 0%Q.
Proof.
  intros Hn Hrun. unfold Py.range1 in Hrun. destruct n as [|n]; [lia|].
  rewrite seq_S, for_each_app in Hrun.
  destruct (for_each (get_weightings_phase model) (seq 1 n) []) as [w0|e];
    simpl in Hrun; [|discriminate].
  destruct (get_weightings_phase model w0 (S n)) as [w1|e] eqn:Hphase;
    simpl in Hrun; [|discriminate].
  injection Hrun as <-. now apply (accounting_phase _ _ _ _ Hphase).
Qed.

Lemma get_by_id_Permutation (rs rs' : list Reaction) (i : string) :
  Permutation rs rs' -> NoDup (map id rs) -> get_by_id rs i = get_by_id rs' i.
Proof.
  intros Hp Hnd.
  assert (Hnd' : NoDup (map id rs'))
    by (apply (Permutation_NoDup (Permutation_map id Hp) Hnd)).
  unfold get_by_id.
  destruct (find (fun r => String.eqb (id r) i) rs) as [r|] eqn:E.
  - apply find_some in E as [Hr Hi]. apply String.eqb_eq in Hi. subst i.
    now rewrite (find_by_id rs' r Hnd' (Permutation_in r Hp Hr)).
  - destruct (find (fun r => String.eqb (id r) i) rs') as [r'|] eqn:E'; [|reflexivity].
    apply find_some in E' as [Hr' Hi].
    apply (Permutation_in r' (Permutation_sym Hp)) in Hr'.
    apply (find_none _ _ E) in Hr'. congruence.
Qed.

Lemma phase_length_Permutation (m m' : Model) (i : nat) :
  Permutation (reactions m) (reactions m') -> NoDup (map id (reactions m)) ->
  phase_length m i = phase_length m' i.
Proof.
  intros Hp Hnd. unfold phase_length.
  now rewrite (get_by_id_Permutation _ _ _ Hp Hnd).
Qed.

(** An entry of one map is an entry of the other. *)
Lemma weights_transfer (m m' : Model) (n : nat) (w w' : Weightings) :
  Permutation (reactions m) (reactions m') -> NoDup (map id (reactions m)) ->
  for_each (get_weightings_phase m) (Py.range1 n) [] = Ok w ->
  for_each (get_weightings_phase m') (Py.range1 n) [] = Ok w' ->
  forall k v, dict_get String.eqb w k = Some v -> dict_get String.eqb w' k = Some v.
Proof.
  intros Hp Hnd Hw Hw' k v Hget.
  assert (Hk : In k (dict_keys w)).
  { destruct (in_dec string_dec k (dict_keys w)) as [H|H]; [exact H|].
    rewrite (dict_get_None w k H) in Hget. discriminate. }
  apply (proj2 (get_weightings_phases_keys m _ w Hw)) in Hk.
  apply in_map_iff in Hk as [r [Hid Hr]]. subst k.
  assert (Hr' : In r (reactions m')) by exact (Permutation_in r Hp Hr).
  assert (Hn : 1 <= n).
  { destruct n; [|lia]. simpl in Hw. injection Hw as <-. discriminate. }
  destruct (is_accounting (id r)) eqn:Ha.
  - rewrite (accounting_all m n w Hn Hw r Hr Ha) in Hget.
    rewrite <- Hget. exact (accounting_all m' n w' Hn Hw' r Hr' Ha).
  - destruct (weights_sound_all m n w Hw (id r) v Hget)
      as [[Ha' _]|[j [Hj1 [Hj9 [Hjn [Hlast Hlen]]]]]]; [congruence|].
    destruct (weights_complete_all m' n w' Hw' r j Hr' Ha Hj1 Hjn Hlast)
      as [v' [Hlen' Hget']].
    rewrite (phase_length_Permutation m m' j Hp Hnd) in Hlen.
    rewrite Hlen in Hlen'. injection Hlen' as <-. exact Hget'.
Qed.

End WeightingMore.

(** X4.  The map [get_weightings] returns has pairwise distinct keys, and
    every key is the identifier of a reaction of the model. *)
Theorem get_weightings_keys `{Cobra} (model : Model) (w : Weightings) :
  get_weightings model = Ok w ->
  NoDup (dict_keys w)
  /\ forall k, In k (dict_keys w) -> exists r, In r (reactions model) /\ id r = k.
Proof.
  unfold get_weightings.
  destruct (check_number_of_models model) as [n|e]; simpl; [|discriminate].
  intros Hrun. destruct (get_weightings_phases_keys model _ w Hrun) as [Hnd Hincl].
  split; [exact Hnd|]. intros k Hk. apply Hincl in Hk.
  apply in_map_iff in Hk as [r [Hid Hr]]. eauto.
Qed.

Lemma get_weightings_keys_witness :
  get_weightings (H := Demo.cobra 2) Demo.two_phases = Ok Demo.two_phase_weights
  /\ NoDup (dict_keys Demo.two_phase_weights).
Proof.
  split; [reflexivity|].
  exact (proj1 (get_weightings_keys (H := Demo.cobra 2) Demo.two_phases
                  Demo.two_phase_weights eq_refl)).
Defined.

(** X5.  When the phase count is [n], [get_weightings] returns a map exactly
    when every phase 1..n has a linker reaction
    "SUCROSE_v_gc_Linker_<i>" with a non-zero coefficient on
    "SUCROSE_v_gc_<i>", and (if there is a phase at all) no reaction outside
    the accounting pattern has the empty identifier, whose last character the
    code would index. *)
Theorem get_weightings_returns_iff `{Cobra} (model : Model) (n : nat) :
  check_number_of_models model = Ok n ->
  (exists w, get_weightings model = Ok w)
  <-> ((forall i, 1 <= i -> i <= n -> exists len, phase_length model i = Ok len)
       /\ (1 <= n -> forall r, In r (reactions model) ->
                     is_accounting (id r) = false -> id r <> EmptyString)).
Proof.
  intros Hn. unfold get_weightings. rewrite Hn. simpl. split.
  - intros [w Hrun].
    assert (Hphase : forall i, 1 <= i -> i <= n ->
               exists w1 w2, get_weightings_phase model w1 i = Ok w2).
    { intros i Hi1 Hin. apply (for_each_ok_each _ _ _ _ Hrun).
      apply in_seq. lia. }
    split.
    + intros i Hi1 Hin. destruct (Hphase i Hi1 Hin) as [w1 [w2 Hp]].
      unfold get_weightings_phase in Hp.
      destruct (phase_length model i) as [len|e]; [eauto | discriminate].
    + intros H1 r Hr Ha. destruct (Hphase 1 (le_n 1) H1) as [w1 [w2 Hp]].
      unfold get_weightings_phase in Hp.
      destruct (phase_length model 1) as [len|e]; simpl in Hp; [|discriminate].
      destruct (for_each_ok_each _ _ _ _ Hp r Hr) as [s1 [s2 Hstep]].
      exact (get_weightings_reaction_ok _ _ _ _ _ Hstep Ha).
  - intros [Hlen Hid]. apply for_each_total. intros w i Hi.
    apply in_seq in Hi. unfold get_weightings_phase.
    destruct (Hlen i ltac:(lia) ltac:(lia)) as [len ->]. simpl.
    apply for_each_total. intros w0 r Hr.
    apply get_weightings_reaction_total. apply Hid; [lia | exact Hr].
Qed.

Lemma get_weightings_returns_iff_witness :
  check_number_of_models (Cobra := Demo.cobra 2) Demo.two_phases = Ok 2
  /\ ((exists w, get_weightings (H := Demo.cobra 2) Demo.two_phases = Ok w)
      <-> ((forall i, 1 <= i -> i <= 2 ->
                      exists len, phase_length Demo.two_phases i = Ok len)
           /\ (1 <= 2 -> forall r, In r (reactions Demo.two_phases) ->
                           is_accounting (id r) = false -> id r <> EmptyString))).
Proof.
  split; [reflexivity|].
  exact (get_weightings_returns_iff (H := Demo.cobra 2) Demo.two_phases 2 eq_refl).
Defined.

(** X6.  [get_weightings] raises the error of the first phase whose length
    cannot be computed: KeyError for a missing linker reaction or marker
    metabolite, ZeroDivisionError for a zero coefficient (identifiers outside
    the accounting pattern being non-empty). *)
Theorem get_weightings_first_error `{Cobra} (model : Model) (n i : nat) (e : PyError) :
  check_number_of_models model = Ok n ->
  1 <= i -> i <= n ->
  (forall j, 1 <= j -> j < i -> exists len, phase_length model j = Ok len) ->
  (forall r, In r (reactions model) ->
             is_accounting (id r) = false -> id r <> EmptyString) ->
  phase_length model i = Raise e ->
  get_weightings model = Raise e.
Proof.
  intros Hn Hi1 Hin Hbefore Hid He. unfold get_weightings. rewrite Hn. simpl.
  unfold Py.range1.
  replace n with ((i - 1) + (1 + (n - i))) by lia.
  rewrite seq_app, for_each_app.
  destruct (for_each_total (get_weightings_phase model) (seq 1 (i - 1))) with (s := @nil (string * Q))
    as [w0 Hw0].
  - intros w j Hj. apply in_seq in Hj. unfold get_weightings_phase.
    destruct (Hbefore j ltac:(lia) ltac:(lia)) as [len ->]. simpl.
    apply for_each_total. intros w1 r Hr.
    apply get_weightings_reaction_total. now apply Hid.
  - rewrite Hw0. cbn [rbind]. replace (1 + (i - 1)) with i by lia.
    cbn [Nat.add seq for_each].
    unfold get_weightings_phase at 1. rewrite He. reflexivity.
Qed.

Lemma get_weightings_first_error_witness :
  check_number_of_models (Cobra := Demo.cobra 1) Demo.two_reactions = Ok 1
  /\ phase_length Demo.two_reactions 1 = Raise (KeyError "SUCROSE_v_gc_Linker_1")
  /\ get_weightings (H := Demo.cobra 1) Demo.two_reactions
     = Raise (KeyError "SUCROSE_v_gc_Linker_1").
Proof.
  split; [reflexivity|]. split; [reflexivity|].
  apply (get_weightings_first_error (H := Demo.cobra 1) Demo.two_reactions 1 1
           (KeyError "SUCROSE_v_gc_Linker_1") eq_refl); try lia.
  - intros r [<-|[<-|[]]] _; discriminate.
  - reflexivity.
Defined.

(** X7.  The weights do not depend on the order of the reactions: two models
    with the same reactions in different order (identifiers pairwise
    distinct) and the same phase count get maps with the same weight, or no
    weight, for every identifier.  Only the order of the keys can differ. *)
Theorem get_weightings_order_independent `{Cobra} (m m' : Model) (n : nat)
    (w w' : Weightings) :
  Permutation (reactions m) (reactions m') ->
  NoDup (map id (reactions m)) ->
  check_number_of_models m = Ok n ->
  check_number_of_models m' = Ok n ->
  get_weightings m = Ok w ->
  get_weightings m' = Ok w' ->
  forall k, dict_get String.eqb w k = dict_get String.eqb w' k.
Proof.
  intros Hp Hnd Hn Hn' Hw Hw' k.
  unfold get_weightings in Hw, Hw'. rewrite Hn in Hw. rewrite Hn' in Hw'.
  simpl in Hw, Hw'.
  assert (Hnd' : NoDup (map id (reactions m')))
    by (apply (Permutation_NoDup (Permutation_map id Hp) Hnd)).
  destruct (dict_get String.eqb w k) as [v|] eqn:E.
  - symmetry. exact (weights_transfer m m' n w w' Hp Hnd Hw Hw' k v E).
  - destruct (dict_get String.eqb w' k) as [v'|] eqn:E'; [|reflexivity].
    rewrite (weights_transfer m' m n w' w (Permutation_sym Hp) Hnd' Hw' Hw k v' E') in E.
    discriminate.
Qed.

Lemma get_weightings_order_independent_witness :
  Permutation (reactions Demo.two_phases) (reactions two_phases_reversed)
  /\ NoDup (map id (reactions Demo.two_phases))
  /\ get_weightings (H := Demo.cobra 2) Demo.two_phases = Ok Demo.two_phase_weights
  /\ get_weightings (H := Demo.cobra 2) two_phases_reversed
     = Ok two_phase_weights_reversed
  /\ forall k, dict_get String.eqb Demo.two_phase_weights k
               = dict_get String.eqb two_phase_weights_reversed k.
Proof.
  assert (Hp : Permutation (reactions Demo.two_phases) (reactions two_phases_reversed))
    by apply Permutation_rev.
  assert (Hnd : NoDup (map id (reactions Demo.two_phases))).
  { simpl. repeat constructor; simpl; intuition discriminate. }
  split; [exact Hp|]. split; [exact Hnd|].
  split; [reflexivity|]. split; [reflexivity|].
  exact (get_weightings_order_independent (H := Demo.cobra 2) Demo.two_phases
           two_phases_reversed 2 Demo.two_phase_weights two_phase_weights_reversed
           Hp Hnd eq_refl eq_refl eq_refl eq_refl).
Defined.

(* ------------------------------------------------------------------ *)
(** ** Sum of fluxes *)
(* ------------------------------------------------------------------ *)

Section SumOfFluxes.
Context `{Cobra}.


End SumOfFluxes.



(* ------------------------------------------------------------------ *)
(** ** Weighted objective builder: labels and matching *)
(* ------------------------------------------------------------------ *)

Section Labels.

Lemma prefix_empty (s : string) : String.prefix EmptyString s = true.
Proof. now destruct s. Qed.

Lemma contains_char (c : ascii) (s : string) :
  Py.contains (String c EmptyString) s = has_char c s.
Proof.
  induction s as [|a s IH]; [reflexivity|].
  change (String.prefix (String c EmptyString) (String a s)
          || Py.contains (String c EmptyString) s = Ascii.eqb a c || has_char c s).
  rewrite IH. simpl. destruct (ascii_dec c a) as [->|Hne].
  - now rewrite prefix_empty, Ascii.eqb_refl.
  - destruct (Ascii.eqb_spec a c); [congruence | reflexivity].
Qed.

Lemma replace_char (c : ascii) (s : string) :
  Py.replace (String c EmptyString) EmptyString s = remove_char c s.
Proof.
  unfold Py.replace. induction s as [|a s IH]; [reflexivity|].
  cbn [Py.replace_from remove_char String.prefix String.length Nat.sub].
  destruct (ascii_dec c a) as [->|Hne].
  - rewrite prefix_empty, Ascii.eqb_refl. exact IH.
  - destruct (Ascii.eqb_spec a c); [congruence|]. now rewrite IH.
Qed.

Lemma remove_char_app (c : ascii) (a b : string) :
  remove_char c (a +:+ b) = remove_char c a +:+ remove_char c b.
Proof.
  induction a as [|x a IH]; [reflexivity|]. simpl.
  destruct (Ascii.eqb x c); [exact IH | simpl; now rewrite IH].
Qed.

Lemma remove_char_free (c : ascii) (s : string) :
  has_char c s = false -> remove_char c s = s.
Proof.
  induction s as [|a s IH]; [reflexivity|]. simpl.
  destruct (Ascii.eqb a c); [discriminate|]. intros H. now rewrite IH.
Qed.

Lemma split_nonempty (c : ascii) (s : string) : exists h t, Py.split c s = h :: t.
Proof.
  induction s as [|a s [h [t IH]]]; simpl; [eauto|].
  destruct (Ascii.eqb a c); [eauto|]. rewrite IH. eauto.
Qed.

Lemma split_second (c : ascii) (s : string) :
  nth_error (Py.split c s) 1 = None <-> has_char c s = false.
Proof.
  induction s as [|a s IH]; simpl; [tauto|].
  destruct (Ascii.eqb a c); simpl.
  - destruct (split_nonempty c s) as [h [t ->]]. simpl. split; discriminate.
  - destruct (split_nonempty c s) as [h [t E]]. rewrite E in *. exact IH.
Qed.

Lemma split_app (c : ascii) (a b : string) :
  has_char c a = false -> Py.split c (a +:+ String c b) = a :: Py.split c b.
Proof.
  induction a as [|x a IH]; simpl.
  - now rewrite Ascii.eqb_refl.
  - destruct (Ascii.eqb x c); [discriminate|]. intros H. now rewrite (IH H).
Qed.

Lemma has_char_app (c : ascii) (a b : string) :
  has_char c (a +:+ b) = has_char c a || has_char c b.
Proof.
  induction a as [|x a IH]; [reflexivity|]. simpl. now rewrite IH, orb_assoc.
Qed.

Lemma append_assoc (a b c : string) : (a +:+ b) +:+ c = a +:+ (b +:+ c).
Proof.
  induction a as [|x a IH]; [reflexivity|].
  change (String x ((a +:+ b) +:+ c) = String x (a +:+ (b +:+ c))). now rewrite IH.
Qed.

Lemma contains_refl (s : string) : Py.contains s s = true.
Proof.
  destruct s as [|a s]; [reflexivity|].
  change (String.prefix (String a s) (String a s) || Py.contains (String a s) s = true).
  now rewrite prefix_refl.
Qed.

Lemma variable_label_raises (v : Var) (e : PyError) :
  variable_label v = Raise e -> e = IndexError.
Proof.
  unfold variable_label. destruct (nth_error _ 1); [discriminate|].
  intros E. now injection E.
Qed.

Lemma weight_loop_raises ws vars : forall tempDict log,
  (exists v, In v vars /\ variable_label v = Raise IndexError) ->
  exists log', mfor_each (weight_variable ws) vars tempDict log
               = (Raise IndexError, log').
Proof.
  induction vars as [|x vars IH]; intros tempDict log [v [Hin Hv]]; [destruct Hin|].
  simpl. unfold bind at 1.
  destruct (variable_label x) as [label|e] eqn:Hx.
  - rewrite (weight_variable_run _ _ _ _ _ Hx). apply IH.
    destruct Hin as [->|Hin]; [congruence | eauto].
  - apply variable_label_raises in Hx as He. subst e.
    unfold weight_variable, bind, lift. rewrite Hx. eauto.
Qed.

Lemma weight_loop_labels ws vars : forall tempDict log tempDict' log',
  mfor_each (weight_variable ws) vars tempDict log = (Ok tempDict', log') ->
  forall v, In v vars -> exists label, variable_label v = Ok label.
Proof.
  intros tempDict log tempDict' log' Hrun v Hv.
  destruct (variable_label v) as [label|e] eqn:E; [eauto|].
  apply variable_label_raises in E as He. subst e.
  destruct (weight_loop_raises ws vars tempDict log (ex_intro _ v (conj Hv E)))
    as [l Hl]. congruence.
Qed.

Lemma weight_fold_keys ws vars : forall (tempDict : list (Var * Q)) v x,
  dict_get Var_eqb
    (fold_left (fun d v => dict_set Var_eqb d v (coefficient_of ws v)) vars tempDict) v
  = Some x ->
  In v vars \/ dict_get Var_eqb tempDict v = Some x.
Proof.
  induction vars as [|v0 vars IH]; intros tempDict v x H; simpl in H; [now right|].
  destruct (IH _ _ _ H) as [Hin|Hget]; [left; now right|].
  destruct (Var_eqb v0 v) eqn:E.
  - apply Var_eqb_eq in E. left. now left.
  - right. rewrite var_dict_get_set_ne in Hget; [exact Hget|].
    intros ->. now rewrite Var_eqb_refl in E.
Qed.

End Labels.

(** X9.  The label of a variable exists exactly when its text contains "=";
    otherwise indexing the split text raises IndexError.  If one flux
    variable of the model has a text without "=", the builder raises
    IndexError (after the notices for the variables before it). *)
Theorem add_pfba_Weighted_label_error `{Cobra} (model : Model)
    (weightings : option Weightings) (objective : option ObjectiveArg)
    (fraction_of_optimum : Q) (log : list Event) (ws : Weightings) (m0 m1 : Model) :
  resolve_weightings model weightings = Ok ws ->
  install_objective model objective = Ok m0 ->
  obj_name (solver_objective m0) <> pfba_objective_name ->
  fix_objective_as_constraint m0 fraction_of_optimum = Ok m1 ->
  (forall v, (exists label, variable_label v = Ok label)
             <-> Py.contains "=" (var_text v) = true)
  /\ (forall v, Py.contains "=" (var_text v) = false ->
                variable_label v = Raise IndexError)
  /\ ((exists v, In v (flux_variables m1) /\ Py.contains "=" (var_text v) = false) ->
      exists log', add_pfba_Weighted model weightings objective fraction_of_optimum log
                   = (Raise IndexError, log')).
Proof.
  intros Hw Hm Hne Hfix.
  assert (Hraise : forall v, Py.contains "=" (var_text v) = false ->
                             variable_label v = Raise IndexError).
  { intros v Hv. rewrite contains_char in Hv. apply split_second in Hv.
    unfold variable_label. now rewrite Hv. }
  split; [|split; [exact Hraise|]].
  - intros v. split.
    + intros [label Hl]. destruct (Py.contains "=" (var_text v)) eqn:E; [reflexivity|].
      rewrite (Hraise v E) in Hl. discriminate.
    + intros Hv. unfold variable_label.
      destruct (nth_error (Py.split "=" (var_text v)) 1) eqn:E; [eauto|].
      apply split_second in E. rewrite <- contains_char in E. congruence.
  - intros [v [Hin Hv]].
    unfold add_pfba_Weighted, bind, lift, ret, raise. rewrite Hw, Hm.
    destruct (String.eqb_spec (obj_name (solver_objective m0)) pfba_objective_name);
      [contradiction|].
    rewrite Hfix.
    change (flux_variables (set_objective m1 _)) with (flux_variables m1).
    destruct (weight_loop_raises ws (flux_variables m1) [] log
                (ex_intro _ v (conj Hin (Hraise v Hv)))) as [log' ->].
    eauto.
Qed.

Lemma add_pfba_Weighted_label_error_witness :
  let ws : Weightings := [("R1", 1%Q); ("R2", 2%Q)] in
  resolve_weightings (H := bare_variables) Demo.two_reactions (Some ws) = Ok ws
  /\ (exists v, In v (flux_variables (H := bare_variables) Demo.two_reactions)
                /\ Py.contains "=" (var_text v) = false)
  /\ exists log', add_pfba_Weighted (H := bare_variables) Demo.two_reactions (Some ws)
                    None 1 [] = (Raise IndexError, log').
Proof.
  intros ws.
  assert (Hbad : exists v, In v (flux_variables (H := bare_variables) Demo.two_reactions)
                           /\ Py.contains "=" (var_text v) = false).
  { eexists. split; [left; reflexivity | reflexivity]. }
  split; [reflexivity|]. split; [exact Hbad|].
  refine (proj2 (proj2 (add_pfba_Weighted_label_error (H := bare_variables)
                          Demo.two_reactions (Some ws) None 1 [] ws
                          Demo.two_reactions Demo.two_reactions
                          eq_refl eq_refl _ eq_refl)) Hbad).
  discriminate.
Defined.

(** X10.  For a variable printed as optlang prints it, "lb <= name <= ub" or
    "lb <= name", the label the builder cuts out is exactly the name, provided
    the lower bound's text contains no "=" and the name contains no "=", no
    blank and no "<". *)
Theorem variable_label_of_bounded (lb name ub : string) :
  Py.contains "=" lb = false ->
  Py.contains "=" name = false ->
  Py.contains " " name = false ->
  Py.contains "<" name = false ->
  variable_label (bounded_variable lb name ub) = Ok name
  /\ variable_label (lower_bounded_variable lb name) = Ok name.
Proof.
  rewrite !contains_char. intros Hlb Heq Hsp Hlt.
  assert (Hhead : has_char "=" (lb +:+ " <") = false)
    by (rewrite has_char_app, Hlb; reflexivity).
  split.
  - unfold variable_label, bounded_variable. cbn [var_text].
    change (lb +:+ " <= " +:+ name +:+ " <= " +:+ ub)
      with (lb +:+ (" <" +:+ String "=" (" " +:+ name +:+ " <= " +:+ ub))).
    rewrite <- append_assoc, (split_app "=" _ _ Hhead).
    change (" " +:+ name +:+ " <= " +:+ ub)
      with (String " " (name +:+ (" <" +:+ String "=" (" " +:+ ub)))).
    rewrite <- append_assoc.
    change (String " " ((name +:+ " <") +:+ String "=" (" " +:+ ub)))
      with ((String " " (name +:+ " <")) +:+ String "=" (" " +:+ ub)).
    rewrite split_app.
    + cbn [nth_error]. f_equal.
      change (String " " (name +:+ " <")) with (" " +:+ name +:+ " <").
      rewrite !replace_char.
      change (" " +:+ name +:+ " <") with (String " " (name +:+ " <")).
      cbn [remove_char Ascii.eqb Bool.eqb andb].
      rewrite remove_char_app, (remove_char_free " " name Hsp).
      change (remove_char " " " <") with "<".
      rewrite remove_char_app, (remove_char_free "<" name Hlt).
      change (remove_char "<" "<") with "".
      clear. induction name as [|a s IH]; [reflexivity|].
      change (String a (s +:+ "") = String a s). now rewrite IH.
    + change (has_char "=" (String " " (name +:+ " <")) = false).
      cbn [has_char Ascii.eqb Bool.eqb andb orb].
      rewrite has_char_app, Heq. reflexivity.
  - unfold variable_label, lower_bounded_variable. cbn [var_text].
    change (lb +:+ " <= " +:+ name)
      with (lb +:+ (" <" +:+ String "=" (" " +:+ name))).
    rewrite <- append_assoc, (split_app "=" _ _ Hhead).
    assert (Hrest : Py.split "=" (" " +:+ name) = [" " +:+ name]).
    { assert (Hfree : has_char "=" (" " +:+ name) = false).
      { change (has_char "=" (String " " name) = false).
        cbn [has_char Ascii.eqb Bool.eqb andb orb]. exact Heq. }
      destruct (split_nonempty "=" (" " +:+ name)) as [h [t E]].
      revert h t E Hfree. generalize (" " +:+ name).
      induction s as [|a s IH]; intros h t E Hfree; [reflexivity|].
      simpl in E, Hfree |- *. destruct (Ascii.eqb a "="); [discriminate|].
      destruct (split_nonempty "=" s) as [h' [t' E']].
      rewrite (IH h' t' E' Hfree). reflexivity. }
    rewrite Hrest. cbn [nth_error]. f_equal.
    rewrite !replace_char.
    change (" " +:+ name) with (String " " name).
    cbn [remove_char Ascii.eqb Bool.eqb andb].
    now rewrite (remove_char_free " " name Hsp), (remove_char_free "<" name Hlt).
Qed.

Lemma variable_label_of_bounded_witness :
  Py.contains "=" "0" = false
  /\ variable_label (bounded_variable "0" "R1" "1000") = Ok "R1"
  /\ variable_label (lower_bounded_variable "0" "R1") = Ok "R1".
Proof.
  split; [reflexivity|].
  apply (variable_label_of_bounded "0" "R1" "1000"); reflexivity.
Defined.

(** X11.  Substring matching gives a variable its own reaction's weight when
    identifiers do not contain one another: if the label of a variable is a
    key [k] of the weighting map and no other key occurs in [k], the loop
    assigns the weight stored under [k] and prints nothing. *)
Theorem weight_variable_own_key (ws : Weightings) (tempDict : list (Var * Q))
    (v : Var) (k : string) (x : Q) (log : list Event) :
  variable_label v = Ok k ->
  dict_get String.eqb ws k = Some x ->
  (forall k', In k' (dict_keys ws) -> Py.contains k' k = true -> k' = k) ->
  weight_variable ws tempDict v log = (Ok (dict_set Var_eqb tempDict v x), log).
Proof.
  intros Hl Hget Honly.
  assert (Hw : first_match_weight ws k = Some x).
  { revert Hget Honly. induction ws as [|[k0 x0] ws IH]; simpl; [discriminate|].
    intros Hget Honly. destruct (Py.contains k0 k) eqn:Hc.
    - rewrite (Honly k0 (or_introl eq_refl) Hc) in Hget.
      now rewrite String.eqb_refl in Hget.
    - destruct (String.eqb_spec k0 k) as [->|Hne].
      + now rewrite contains_refl in Hc.
      + apply IH; [exact Hget|]. intros k' Hk'. apply Honly. now right. }
  rewrite (weight_variable_run ws tempDict v log k Hl).
  unfold coefficient_of, notices_of, label_of. rewrite Hl, Hw.
  now rewrite app_nil_r.
Qed.

Lemma weight_variable_own_key_witness :
  let ws : Weightings := [("R1", 1%Q); ("R2", 2%Q)] in
  let v := bounded_variable "0" "R2" "1000" in
  variable_label v = Ok "R2"
  /\ dict_get String.eqb ws "R2" = Some 2%Q
  /\ weight_variable ws [] v [] = (Ok (dict_set Var_eqb [] v 2%Q), []).
Proof.
  intros ws v. split; [reflexivity|]. split; [reflexivity|].
  apply (weight_variable_own_key ws [] v "R2" 2%Q []); try reflexivity.
  intros k' [<-|[<-|[]]]; [discriminate | reflexivity].
Defined.

(** X12.  What a successful call of the builder leaves behind: the model
    returned by freezing the objective, with a new objective named
    "_pfba_objective" of direction "min"; reactions, constraints and the
    [fva] attribute are those of the frozen model; only flux variables of its
    reactions carry a coefficient; and the log grows by printed notices
    only. *)
Theorem add_pfba_Weighted_result `{Cobra} (model : Model)
    (weightings : option Weightings) (objective : option ObjectiveArg)
    (fraction_of_optimum : Q) (log log' : list Event) (m' : Model) :
  add_pfba_Weighted model weightings objective fraction_of_optimum log = (Ok m', log') ->
  exists m0 m1 notices,
    install_objective model objective = Ok m0
    /\ fix_objective_as_constraint m0 fraction_of_optimum = Ok m1
    /\ reactions m' = reactions m1
    /\ cons_vars m' = cons_vars m1
    /\ fva m' = fva m1
    /\ obj_name (solver_objective m') = "_pfba_objective"
    /\ direction (solver_objective m') = "min"
    /\ (forall v x, dict_get Var_eqb (linear_coefficients (solver_objective m')) v
                    = Some x ->
                    exists rxn, In rxn (reactions m1)
                                /\ (v = forward_variable rxn \/ v = reverse_variable rxn))
    /\ log' = log ++ notices
    /\ forall ev, In ev notices -> exists text, ev = Print text.
Proof.
  intros Hrun.
  assert (Hcopy := Hrun). unfold add_pfba_Weighted, bind, lift, ret, raise in Hcopy.
  destruct (resolve_weightings model weightings) as [ws|] eqn:Hw; [|discriminate].
  destruct (install_objective model objective) as [m0|] eqn:Hm; [|discriminate].
  destruct (String.eqb_spec (obj_name (solver_objective m0)) pfba_objective_name)
    as [|Hne]; [discriminate|].
  destruct (fix_objective_as_constraint m0 fraction_of_optimum) as [m1|] eqn:Hfix;
    [|discriminate].
  change (flux_variables (set_objective m1 _)) with (flux_variables m1) in Hcopy.
  destruct (mfor_each (weight_variable ws) (flux_variables m1) [] log)
    as [[td|e] l] eqn:Hloop; [|discriminate].
  pose proof (weight_loop_labels ws _ _ _ _ _ Hloop) as Hlabels.
  destruct (add_pfba_Weighted_run model weightings objective fraction_of_optimum
              log ws m0 Hw Hm) as [_ Hok].
  rewrite (Hok Hne m1 Hfix Hlabels) in Hrun. injection Hrun as <- <-.
  exists m0, m1, (flat_map (notices_of ws) (flux_variables m1)).
  split; [reflexivity|]. split; [exact Hfix|].
  split; [reflexivity|]. split; [reflexivity|]. split; [reflexivity|].
  split; [reflexivity|]. split; [reflexivity|]. split; [|split; [reflexivity|]].
  - intros v x Hget. simpl in Hget.
    apply weight_fold_keys in Hget as [Hin|Hget]; [|discriminate].
    unfold flux_variables in Hin. apply in_flat_map in Hin as [rxn [Hr Hv]].
    exists rxn. split; [exact Hr|]. simpl in Hv. intuition.
  - intros ev Hev. apply in_flat_map in Hev as [v [_ Hev]].
    unfold notices_of in Hev. destruct (first_match_weight ws (label_of v)).
    + destruct Hev.
    + destruct Hev as [<-|[]]. eauto.
Qed.

Lemma add_pfba_Weighted_result_witness :
  let ws : Weightings := [("R1", 1%Q); ("R2", 2%Q)] in
  let run := add_pfba_Weighted (H := Demo.cobra 2) Demo.two_reactions (Some ws)
               None 1 [] in
  exists m', run = (Ok m', snd run)
    /\ reactions m' = reactions Demo.two_reactions
    /\ direction (solver_objective m') = "min".
Proof.
  intros ws run.
  assert (Hrun : exists m', run = (Ok m', snd run)) by (eexists; vm_compute; reflexivity).
  destruct Hrun as [m' Hrun]. exists m'. split; [exact Hrun|].
  destruct (add_pfba_Weighted_result (H := Demo.cobra 2) Demo.two_reactions (Some ws)
              None 1 [] (snd run) m' Hrun)
    as (m0 & m1 & notices & Hm & Hfix & Hr & _ & _ & _ & Hd & _).
  injection Hm as <-. injection Hfix as <-. split; [exact Hr | exact Hd].
Defined.

(* ------------------------------------------------------------------ *)
(** ** Variability driver: the table it returns *)
(* ------------------------------------------------------------------ *)

Section DriverTable.

Lemma series_updates (value_of : string -> Q) (done : list string) : forall s : Series,
  fold_left (fun s r => series_update s (fst r) (snd r))
            (map (fun i => (i, value_of i)) done) s
  = map (fun kv => if existsb (String.eqb (fst kv)) done
                   then (fst kv, value_of (fst kv)) else kv) s.
Proof.
  induction done as [|i done IH]; intros s; simpl.
  - rewrite <- (map_id s) at 1. apply map_ext. now intros [k v].
  - rewrite IH. unfold series_update. rewrite map_map. apply map_ext.
    intros [k v]. simpl. destruct (String.eqb_spec k i) as [->|Hne]; simpl.
    + now destruct (existsb (String.eqb i) done).
    + reflexivity.
Qed.

Lemma frame_updates (what : string) (results : list (string * Q)) : forall t : Table,
  fold_left (update_result what) results t
  = map (fun cs => if String.eqb (fst cs) what
                   then (fst cs, fold_left (fun s r => series_update s (fst r) (snd r))
                                           results (snd cs))
                   else cs) t.
Proof.
  induction results as [|r results IH]; intros t; simpl.
  - rewrite <- (map_id t) at 1. apply map_ext. intros [c s]. simpl.
    now destruct (String.eqb c what).
  - rewrite IH. unfold update_result, frame_update. rewrite map_map. apply map_ext.
    intros [c s]. simpl. destruct (String.eqb c what) eqn:E; simpl; now rewrite E.
Qed.

Lemma zeros_all_written (value_of : string -> Q) (ids : list string) :
  fold_left (fun s r => series_update s (fst r) (snd r))
            (map (fun i => (i, value_of i)) ids) (zeros ids)
  = map (fun i => (i, value_of i)) ids.
Proof.
  rewrite series_updates. unfold zeros. rewrite map_map. apply map_ext_in.
  intros k Hk. simpl.
  assert (E : existsb (String.eqb k) ids = true).
  { apply existsb_exists. exists k. split; [exact Hk | apply String.eqb_refl]. }
  now rewrite E.
Qed.

Lemma chunks_upto_incl {A : Type} (size : nat) : forall (fuel : nat) (l chunk : list A),
  In chunk (chunks_upto fuel size l) -> incl chunk l.
Proof.
  induction fuel as [|fuel IH]; intros l chunk Hc; simpl in Hc; [destruct Hc|].
  destruct l as [|x l]; [destruct Hc|].
  destruct Hc as [<-|Hc].
  - intros a Ha. rewrite <- (firstn_skipn size (x :: l)). apply in_or_app. now left.
  - intros a Ha. rewrite <- (firstn_skipn size (x :: l)). apply in_or_app. right.
    exact (IH _ _ Hc a Ha).
Qed.

Context `{Cobra}.

Lemma fva_written_all (snapshot : Model) (loopless : bool) (ids : list string) :
  fva_written snapshot loopless ids
    (fva_written snapshot loopless ids
       [("minimum", zeros ids); ("maximum", zeros ids)] "minimum") "maximum"
  = [("minimum", fva_column snapshot loopless "min" ids);
     ("maximum", fva_column snapshot loopless "max" ids)].
Proof.
  unfold fva_written, fva_column. rewrite !frame_updates. simpl.
  change (Py.slice_to 3 "minimum") with "min".
  change (Py.slice_to 3 "maximum") with "max".
  unfold fva_result_of. now rewrite !zeros_all_written.
Qed.

Lemma fva_direction_events model loopless (p : Z) ids t what log :
  exists events,
    snd (fva_direction model loopless p ids t what log) = log ++ events
    /\ forall ev, In ev events ->
         exists i, In i ids /\ (ev = Solve i \/ ev = Print i).
Proof.
  unfold fva_direction.
  set (results := map (fva_result_of model loopless (Py.slice_to 3 what)) ids).
  assert (Hres : forall r, In r results -> In (fst r) ids).
  { intros r Hr.
    now apply (fva_results_labels model loopless (Py.slice_to 3 what) ids r). }
  destruct (1 <? p)%Z.
  - destruct (Nat.eqb _ 0).
    + exists []. split; [now rewrite app_nil_r | intros ev []].
    + set (arrived := concat (imap_unordered (chunks _ results))).
      assert (Harr : forall r, In r arrived -> In (fst r) ids).
      { intros r Hr. apply Hres. unfold arrived in Hr.
        apply in_concat in Hr as [chunk [Hc Hr]].
        apply (Permutation_in chunk (imap_unordered_complete _)) in Hc.
        exact (chunks_upto_incl _ _ _ _ Hc r Hr). }
      rewrite (mfor_each_pure _ (write_result what)
                 (fun r => [Solve (fst r); Print (fst r)])).
      * eexists. split; [reflexivity|].
        intros ev Hev. apply in_flat_map in Hev as [r [Hr Hev]].
        exists (fst r). split; [now apply Harr|].
        destruct Hev as [<-|[<-|[]]]; auto.
      * intros s x l. unfold bind, print, emit, ret. now rewrite <- app_assoc.
  - rewrite (mfor_each_pure _ (write_result what) (fun r => [Solve (fst r)])).
    + eexists. split; [reflexivity|].
      intros ev Hev. apply in_flat_map in Hev as [r [Hr Hev]].
      exists (fst r). split; [now apply Hres|].
      destruct Hev as [<-|[]]; auto.
    + intros s x l. reflexivity.
Qed.

End DriverTable.

Section DriverTableRuns.
Context `{Cobra}.

Lemma fva_direction_full model loopless (p : Z) ids t what log :
  (p <= Z.of_nat (length ids))%Z -> labelled ids t ->
  exists events,
    fva_direction model loopless p ids t what log
    = (Ok (fva_written model loopless ids t what), log ++ events)
    /\ forall ev, In ev events -> exists i, In i ids /\ (ev = Solve i \/ ev = Print i).
Proof.
  intros Hp Hl.
  destruct (fva_direction_run model loopless p ids t what log Hp Hl) as [ev Hrun].
  destruct (fva_direction_events model loopless p ids t what log) as [ev' [Hsnd Hev]].
  rewrite Hrun in Hsnd. simpl in Hsnd. apply app_inv_head in Hsnd. subst ev'.
  exists ev. split; assumption.
Qed.

Lemma fva_directions_full model loopless (p : Z) ids log :
  (p <= Z.of_nat (length ids))%Z ->
  exists events,
    mfor_each (fva_direction model loopless p ids) ["minimum"; "maximum"]
              [("minimum", zeros ids); ("maximum", zeros ids)] log
    = (Ok [("minimum", fva_column model loopless "min" ids);
           ("maximum", fva_column model loopless "max" ids)],
       log ++ events)
    /\ forall ev, In ev events -> exists i, In i ids /\ (ev = Solve i \/ ev = Print i).
Proof.
  intros Hp. simpl. unfold bind.
  destruct (fva_direction_full model loopless p ids _ "minimum" log Hp
              (zeros_labelled ids)) as [ev1 [-> Hev1]].
  destruct (fva_direction_full model loopless p ids _ "maximum" (log ++ ev1) Hp
              (fva_written_labelled model loopless ids _ "minimum" (zeros_labelled ids)))
    as [ev2 [-> Hev2]].
  exists (ev1 ++ ev2). unfold ret. rewrite fva_written_all, app_assoc.
  split; [reflexivity|].
  intros ev Hev. apply in_app_or in Hev as [Hev|Hev]; auto.
Qed.

Lemma flux_variability_analysis_run model reaction_list loopless fraction_of_optimum
    (p : Z) log ids value :
  resolve_reaction_ids model reaction_list = Ok ids ->
  slim_optimize model = Ok value ->
  exists snapshot events,
    reactions snapshot = reactions model
    /\ linear_coefficients (solver_objective snapshot) = []
    /\ flux_variability_analysis model reaction_list loopless
         fraction_of_optimum None (Some p) log
       = (Ok [("minimum", fva_column snapshot loopless "min" ids);
              ("maximum", fva_column snapshot loopless "max" ids)],
          log ++ Solve "baseline" :: events)
    /\ forall ev, In ev events ->
         exists i, In i ids /\ (ev = Solve i \/ ev = Print i).
Proof.
  intros Hids Hv. unfold flux_variability_analysis, bind, lift, ret, emit.
  rewrite Hids, Hv.
  match goal with
  | |- context [mfor_each (fva_direction ?m _ ?q _) _ _ ?l] =>
      destruct (fva_directions_full m loopless q ids l ltac:(lia)) as [ev [Hrun Hev]];
      exists m, ev
  end.
  split; [reflexivity|]. split; [reflexivity|]. split; [|exact Hev].
  rewrite Hrun. now rewrite <- app_assoc.
Qed.

End DriverTableRuns.

(** X13.  With an explicit process count and no pFBA factor,
    [flux_variability_analysis] first solves the baseline.  If that fails the
    error is raised at once, before any per-reaction step.  Otherwise the
    call returns a table whose two columns list exactly the requested
    reactions, in the order (and with the repetitions) of the request, each
    with the value the solver step finds for it in direction "min" resp.
    "max" on a snapshot that has the model's reactions and a zero objective;
    besides the baseline solve only solves and prints of listed reactions are
    logged. *)
Theorem flux_variability_analysis_table `{Cobra} (model : Model)
    (reaction_list : option (list string)) (loopless : bool)
    (fraction_of_optimum : Q) (p : Z) (log : list Event) (ids : list string) :
  resolve_reaction_ids model reaction_list = Ok ids ->
  (forall e, slim_optimize model = Raise e ->
     flux_variability_analysis model reaction_list loopless fraction_of_optimum
       None (Some p) log
     = (Raise e, log ++ [Solve "baseline"]))
  /\ (forall value, slim_optimize model = Ok value ->
        exists snapshot events,
          reactions snapshot = reactions model
          /\ linear_coefficients (solver_objective snapshot) = []
          /\ flux_variability_analysis model reaction_list loopless
               fraction_of_optimum None (Some p) log
             = (Ok [("minimum", fva_column snapshot loopless "min" ids);
                    ("maximum", fva_column snapshot loopless "max" ids)],
                log ++ Solve "baseline" :: events)
          /\ forall ev, In ev events ->
               exists i, In i ids /\ (ev = Solve i \/ ev = Print i)).
Proof.
  intros Hids. split.
  - intros e He. unfold flux_variability_analysis, bind, lift, ret, emit.
    now rewrite Hids, He.
  - intros value Hv.
    exact (flux_variability_analysis_run model reaction_list loopless
             fraction_of_optimum p log ids value Hids Hv).
Qed.

Lemma flux_variability_analysis_table_witness :
  resolve_reaction_ids Demo.two_reactions (Some ["R2"; "R1"]) = Ok ["R2"; "R1"]
  /\ exists snapshot events,
       flux_variability_analysis (H := Demo.cobra 2) Demo.two_reactions
         (Some ["R2"; "R1"]) false 1 None (Some 2%Z) []
       = (Ok [("minimum", fva_column (H := Demo.cobra 2) snapshot false "min" ["R2"; "R1"]);
              ("maximum", fva_column (H := Demo.cobra 2) snapshot false "max" ["R2"; "R1"])],
          [] ++ Solve "baseline" :: events).
Proof.
  split; [reflexivity|].
  destruct (proj2 (flux_variability_analysis_table (H := Demo.cobra 2)
                     Demo.two_reactions (Some ["R2"; "R1"]) false 1 2 []
                     ["R2"; "R1"] eq_refl) 1%Q eq_refl)
    as [snapshot [events [_ [_ [Hrun _]]]]].
  exists snapshot, events. exact Hrun.
Defined.

(* ------------------------------------------------------------------ *)
(** ** Folding of split pairs *)
(* ------------------------------------------------------------------ *)

Section FoldPairs.
Variable column : Series.

Lemma dict_contains_get (k : string) :
  dict_contains String.eqb column k
  = match dict_get String.eqb column k with Some _ => true | None => false end.
Proof.
  unfold dict_contains, dict_keys. induction column as [|[k' v'] d IH]; simpl; [reflexivity|].
  destruct (String.eqb k' k); [reflexivity | exact IH].
Qed.

Lemma fold_step_eq (seen : gset string) (tempdict : Series) (rxn : string) :
  fold_step column (seen, tempdict) rxn
  = if bool_decide (folded_name rxn ∈ seen) then Ok (seen, tempdict)
    else match pair_value column (folded_name rxn) with
         | Some v => Ok ({[folded_name rxn]} ∪ seen,
                         dict_set String.eqb tempdict (folded_name rxn) v)
         | None => Raise (KeyError (folded_name rxn))
         end.
Proof.
  unfold fold_step. fold (folded_name rxn).
  destruct (bool_decide (folded_name rxn ∈ seen)); [reflexivity|].
  unfold pair_value, series_get. rewrite dict_contains_get.
  destruct (dict_get String.eqb column (folded_name rxn)) as [a|];
    destruct (dict_get String.eqb column (folded_name rxn +:+ reverse_suffix)) as [b|];
    reflexivity.
Qed.

Lemma fold_loop_get (todo : list string) : forall seen tempdict seen' tempdict',
  (forall k, dict_get String.eqb tempdict k
             = if bool_decide (k ∈ seen) then pair_value column k else None) ->
  for_each (fold_step column) todo (seen, tempdict) = Ok (seen', tempdict') ->
  (forall k, k ∈ seen' <-> k ∈ seen \/ In k (map folded_name todo))
  /\ (forall k, dict_get String.eqb tempdict' k
                = if bool_decide (k ∈ seen') then pair_value column k else None).
Proof.
  induction todo as [|rxn todo IH]; intros seen tempdict seen' tempdict' Hinv Hrun.
  - simpl in Hrun. injection Hrun as <- <-. split; [|exact Hinv].
    intros k. simpl. tauto.
  - cbn [for_each] in Hrun. rewrite fold_step_eq in Hrun.
    destruct (bool_decide (folded_name rxn ∈ seen)) eqn:Hseen.
    + apply bool_decide_eq_true in Hseen. simpl in Hrun.
      destruct (IH _ _ _ _ Hinv Hrun) as [Hmem Hget]. split; [|exact Hget].
      intros k. rewrite Hmem. simpl. split; [tauto|].
      intros [Hk | [<- | Hk]]; auto.
    + apply bool_decide_eq_false in Hseen.
      destruct (pair_value column (folded_name rxn)) as [v|] eqn:Hv;
        simpl in Hrun; [|discriminate].
      assert (Hinv' : forall k,
                 dict_get String.eqb (dict_set String.eqb tempdict (folded_name rxn) v) k
                 = if bool_decide (k ∈ {[folded_name rxn]} ∪ seen)
                   then pair_value column k else None).
      { intros k. destruct (String.eqb_spec (folded_name rxn) k) as [<-|Hne].
        - rewrite dict_get_set_eq, bool_decide_eq_true_2; [now rewrite Hv|].
          apply elem_of_union. left. now apply elem_of_singleton.
        - rewrite dict_get_set_ne by exact Hne. rewrite Hinv.
          destruct (bool_decide (k ∈ seen)) eqn:Hk.
          + apply bool_decide_eq_true in Hk. rewrite bool_decide_eq_true_2; [reflexivity|].
            apply elem_of_union. now right.
          + apply bool_decide_eq_false in Hk. rewrite bool_decide_eq_false_2; [reflexivity|].
            intros Hu. apply elem_of_union in Hu as [Hu|Hu]; [|contradiction].
            apply elem_of_singleton in Hu. congruence. }
      destruct (IH _ _ _ _ Hinv' Hrun) as [Hmem Hget]. split; [|exact Hget].
      intros k. rewrite Hmem, elem_of_union, elem_of_singleton. simpl.
      split.
      * intros [[-> | Hk] | Hk]; auto.
      * intros [Hk | [<- | Hk]]; auto.
Qed.

Lemma fold_column_get (out : Series) :
  fold_column column = Ok out ->
  forall k, dict_get String.eqb out k
            = if existsb (fun k0 => String.eqb (folded_name k0) k) (dict_keys column)
              then pair_value column k else None.
Proof.
  unfold fold_column.
  destruct (for_each (fold_step column) (dict_keys column) (∅, ([] : Series)))
    as [[seen' tempdict']|e] eqn:Hrun; simpl; [|discriminate].
  intros E. injection E as <-. intros k.
  pose proof (fun Hstart => fold_loop_get _ _ _ _ _ Hstart Hrun) as Hloop.
  destruct Hloop as [Hmem Hget].
  { intros k0. rewrite bool_decide_eq_false_2; [reflexivity|]. apply not_elem_of_empty. }
  rewrite Hget.
  destruct (existsb _ _) eqn:Hex.
  - rewrite bool_decide_eq_true_2; [reflexivity|].
    apply Hmem. right. apply existsb_exists in Hex as [k0 [Hk0 E]].
    apply String.eqb_eq in E. subst k. now apply in_map.
  - rewrite bool_decide_eq_false_2; [reflexivity|].
    intros Hk. apply Hmem in Hk as [Hk|Hk]; [now apply elem_of_empty in Hk|].
    apply in_map_iff in Hk as [k0 [E Hk0]].
    assert (Ht : existsb (fun k0 => String.eqb (folded_name k0) k) (dict_keys column) = true).
    { apply existsb_exists. exists k0. split; [assumption|]. now apply String.eqb_eq. }
    congruence.
Qed.



End FoldPairs.


(** X14.  When the fold of a column returns, the result has a row for a
    name exactly when the name is the folded name (the label with "_reverse"
    removed) of some row of the column; the row carries the column's value
    for the name, to which the value of the row [name + "_reverse"] is added
    when the column has that row.  Every name is written once, whatever
    the order of the rows. *)
Theorem fold_column_sums (column out : Series) :
  fold_column column = Ok out ->
  forall k, dict_get String.eqb out k
            = if existsb (fun k0 => String.eqb (folded_name k0) k) (dict_keys column)
              then pair_value column k else None.
Proof.
  exact (fold_column_get column out).
Qed.

Lemma fold_column_sums_witness :
  fold_column split_column = Ok [("R1", 3%Q); ("R2", (4 + - (5))%Q)]
  /\ dict_get String.eqb [("R1", 3%Q); ("R2", (4 + - (5))%Q)] "R2"
     = (if existsb (fun k0 => String.eqb (folded_name k0) "R2") (dict_keys split_column)
        then pair_value split_column "R2" else None).
Proof.
  assert (Hrun : fold_column split_column = Ok [("R1", 3%Q); ("R2", (4 + - (5))%Q)])
    by (vm_compute; reflexivity).
  split; [exact Hrun|].
  exact (fold_column_sums split_column _ Hrun "R2").
Defined.



(* ------------------------------------------------------------------ *)
(** ** The flux-sum branch: the reactions handed to the analysis *)
(* ------------------------------------------------------------------ *)

Section FluxSumBranch.

Lemma get_by_id_Ok (rs : list Reaction) (i : string) (r : Reaction) :
  get_by_id rs i = Ok r -> In r rs /\ id r = i.
Proof.
  unfold get_by_id. destruct (find _ rs) as [x|] eqn:E; [|discriminate].
  intros Hx. injection Hx as <-. apply find_some in E as [Hin Hid].
  apply String.eqb_eq in Hid. auto.
Qed.

Lemma split_origin_one_sided (rs : list Reaction) (y : Reaction) :
  split_origin rs [] y ->
  Py.Qltb (lower_bound y) 0 && Py.Qltb 0 (upper_bound y) = false.
Proof.
  intros [[]|[r [_ [[Hr ->]|[_ [-> | ->]]]]]].
  - apply andb_false_iff. left. now apply Qltb_nlt.
  - reflexivity.
  - apply andb_false_r.
Qed.

Lemma rxnlist2_loop `{Cobra} (sfmodel : Model) (weightings : Weightings)
    (rxnlist : list Reaction) : forall acc out,
  (forall y, In y (reactions sfmodel) ->
             Py.Qltb (lower_bound y) 0 && Py.Qltb 0 (upper_bound y) = false) ->
  for_each (fun rxnlist2 rxn =>
              rbind (get_by_id (reactions sfmodel) (id rxn)) (fun rxn =>
              rbind (if Py.Qltb (lower_bound rxn) 0
                        && Py.Qltb 0 (upper_bound rxn)
                     then rbind (weight_of weightings (id rxn)) (fun w =>
                          if negb (Qeq_bool w 0) then
                            rbind (get_by_id (reactions sfmodel)
                                     (id rxn +:+ reverse_suffix))
                                  (fun rr => Ok (rxnlist2 ++ [rr]))
                          else Ok rxnlist2)
                     else Ok rxnlist2) (fun rxnlist2 =>
              rbind (get_by_id (reactions sfmodel) (id rxn)) (fun r =>
              Ok (rxnlist2 ++ [r])))))
           rxnlist acc = Ok out ->
  map id out = map id acc ++ map id rxnlist
  /\ forall r, In r out -> In r acc \/ In r (reactions sfmodel).
Proof.
  intros acc out Hone. revert acc out.
  induction rxnlist as [|x l IH]; intros acc out Hrun.
  - simpl in Hrun. injection Hrun as <-. rewrite app_nil_r. auto.
  - cbn [for_each] in Hrun.
    destruct (get_by_id (reactions sfmodel) (id x)) as [rxn|e] eqn:Hget;
      cbn [rbind] in Hrun; [|discriminate].
    destruct (get_by_id_Ok _ _ _ Hget) as [Hin Hid].
    rewrite (Hone rxn Hin) in Hrun. cbn [rbind] in Hrun.
    rewrite Hid, Hget in Hrun. cbn [rbind] in Hrun.
    destruct (IH _ _ Hrun) as [Hids Hmem]. split.
    + rewrite Hids, map_app. simpl. rewrite Hid. now rewrite <- app_assoc.
    + intros r Hr. destruct (Hmem r Hr) as [Hacc|Hsf]; [|now right].
      apply in_app_or in Hacc as [Hacc|[<-|[]]]; auto.
Qed.

End FluxSumBranch.

(** X16.  In the flux-sum branch of [pFBA_FVA_run] the list handed to the
    variability analysis names exactly the reactions of [rxnlist], once each
    and in order: the reactions are looked up in the split model, where no
    reaction has both a negative lower bound and a positive upper bound, so
    the test that would add the "_reverse" partner never holds.  Stated for a
    model with pairwise distinct reaction identifiers and a solver whose
    [optimize] leaves the reactions as they are. *)
Theorem sof_model_forward_only `{Cobra} (cobra_model : Model) (obj : string)
    (objvalue : Q) (rxnlist : list Reaction) (log : list Event)
    (sfmodel : Model) (rxnlist2 : list Reaction) (log' : list Event) :
  (forall m, reactions (optimize m) = reactions m) ->
  NoDup (map id (reactions cobra_model)) ->
  sof_model cobra_model obj objvalue rxnlist log = (Ok (sfmodel, rxnlist2), log') ->
  map id rxnlist2 = map id rxnlist
  /\ forall r, In r rxnlist2 ->
       In r (reactions sfmodel)
       /\ ~ ((lower_bound r < 0)%Q /\ (0 < upper_bound r)%Q).
Proof.
  intros Hopt Hnd Hrun.
  unfold sof_model, bind, lift, print, emit, ret in Hrun.
  destruct (get_sum_of_fluxes cobra_model) as [sum|e]; [|discriminate].
  destruct (get_weightings cobra_model) as [w|e]; [|discriminate].
  destruct (rev2irrev cobra_model) as [irr|e] eqn:Hirr; [|discriminate].
  match type of Hrun with
  | context [for_each ?body (reactions irr) w] =>
      destruct (for_each body (reactions irr) w) as [w'|e]; [|discriminate]
  end.
  match type of Hrun with
  | context [for_each ?body (reactions irr) []] =>
      destruct (for_each body (reactions irr) []) as [cs|e]; [|discriminate]
  end.
  cbn [add_cons_vars reactions] in Hrun.
  destruct (get_by_id (reactions irr) obj) as [objrxn|e]; [|discriminate].
  match type of Hrun with
  | context [for_each ?body rxnlist []] =>
      destruct (for_each body rxnlist []) as [l2|e] eqn:Hloop; [|discriminate]
  end.
  injection Hrun as <- <- _.
  match type of Hloop with
  | context [get_by_id (reactions ?sf) _] =>
      assert (Hone : forall y, In y (reactions sf) ->
                Py.Qltb (lower_bound y) 0 && Py.Qltb 0 (upper_bound y) = false)
  end.
  { intros y Hy. rewrite Hopt in Hy. cbn [add_cons_vars reactions] in Hy.
    exact (split_origin_one_sided _ _ (rev2irrev_origin _ _ Hnd Hirr y Hy)). }
  destruct (rxnlist2_loop _ _ _ _ _ Hone Hloop) as [Hids Hmem]. split; [exact Hids|].
  intros r Hr. destruct (Hmem r Hr) as [[]|Hsf]. split; [exact Hsf|].
  intros [Hlb Hub]. apply Qltb_lt in Hlb, Hub.
  specialize (Hone r Hsf). rewrite Hlb, Hub in Hone. discriminate.
Qed.

Lemma sof_model_forward_only_witness :
  (forall m, reactions (optimize (Cobra := Demo.cobra 1) m) = reactions m)
  /\ NoDup (map id (reactions one_phase_reversible))
  /\ exists sfmodel rxnlist2 log',
       sof_model (H := Demo.cobra 1) one_phase_reversible "Phloem_tx_overall" 1
                 [PGK_c_1] []
       = (Ok (sfmodel, rxnlist2), log')
       /\ map id rxnlist2 = map id [PGK_c_1].
Proof.
  assert (Hnd : NoDup (map id (reactions one_phase_reversible))).
  { simpl. repeat constructor; simpl; intuition discriminate. }
  split; [reflexivity|]. split; [exact Hnd|].
  destruct (sof_model (H := Demo.cobra 1) one_phase_reversible "Phloem_tx_overall" 1
                      [PGK_c_1] [])
    as [[[sfmodel rxnlist2]|e] log'] eqn:Hrun.
  - exists sfmodel, rxnlist2, log'. split; [reflexivity|].
    exact (proj1 (sof_model_forward_only (H := Demo.cobra 1) one_phase_reversible
                    "Phloem_tx_overall" 1 [PGK_c_1] [] sfmodel rxnlist2 log'
                    (fun m => eq_refl) Hnd Hrun)).
  - exfalso. vm_compute in Hrun. discriminate.
Defined.

Section FluxSumWeights.

Lemma rev2irrev_ids_kept (m out : Model) :
  rev2irrev m = Ok out -> incl (map id (reactions m)) (map id (reactions out)).
Proof.
  intros Hrun.
  destruct (rev2irrev_loop_shape m (reactions m) m []) as [out' [added [Hrun' Hs]]].
  - intros r Hr. now apply in_map.
  - split; [reflexivity|]. split; [reflexivity|]. split; [reflexivity|]. split.
    + exists (reactions m). split; [now rewrite app_nil_r | reflexivity].
    + intros a [].
  - unfold rev2irrev in Hrun. rewrite Hrun in Hrun'. injection Hrun' as <-.
    destruct Hs as (_ & _ & _ & (base & Hbase & Hids) & _).
    intros i Hi. rewrite Hbase, map_app, Hids. apply in_or_app. now left.
Qed.

Lemma reverse_weights_keys (w : Weightings) (rs : list Reaction) (w' : Weightings) :
  for_each (fun ws reaction =>
              if Py.contains reverse_suffix (id reaction) then
                let originalreaction := Py.replace reverse_suffix "" (id reaction) in
                rbind (weight_of ws originalreaction) (fun x =>
                Ok (dict_set String.eqb ws (id reaction) x))
              else Ok ws) rs w = Ok w' ->
  forall k, In k (dict_keys w') ->
            In k (dict_keys w) \/ Py.contains reverse_suffix k = true.
Proof.
  apply (for_each_inv
           (fun ws : Weightings =>
              forall k, In k (dict_keys ws) ->
                        In k (dict_keys w) \/ Py.contains reverse_suffix k = true)).
  - intros ws r ws' _ Hinv Hstep k Hk.
    destruct (Py.contains reverse_suffix (id r)) eqn:Hc.
    + cbv zeta in Hstep.
      destruct (weight_of ws (Py.replace reverse_suffix "" (id r))) as [x|e];
        simpl in Hstep; [|discriminate].
      injection Hstep as <-. rewrite dict_set_keys in Hk.
      destruct (dict_contains String.eqb ws (id r)); [now apply Hinv|].
      apply in_app_or in Hk as [Hk|[<-|[]]]; [now apply Hinv | now right].
    + injection Hstep as <-. now apply Hinv.
  - intros k Hk. now left.
Qed.

Lemma weight_of_key (w : Weightings) (k : string) (x : Q) :
  weight_of w k = Ok x -> In k (dict_keys w).
Proof.
  unfold weight_of. destruct (dict_get String.eqb w k) as [v|] eqn:E; [|discriminate].
  intros _. apply dict_get_In in E. apply in_map_iff. now exists (k, v).
Qed.

End FluxSumWeights.

(** X17.  The flux-sum branch of [pFBA_FVA_run] looks up a weight for every
    reaction of the split model.  It therefore returns only if the weighting
    generator returns and gives a weight to every reaction of the model whose
    identifier is free of "_reverse": one reaction that is neither an
    accounting reaction nor named after a phase makes the branch end in a
    KeyError. *)
Theorem sof_model_needs_weights `{Cobra} (cobra_model : Model) (obj : string)
    (objvalue : Q) (rxnlist : list Reaction) (log : list Event)
    (result : Model * list Reaction) (log' : list Event) :
  sof_model cobra_model obj objvalue rxnlist log = (Ok result, log') ->
  exists w,
    get_weightings cobra_model = Ok w
    /\ forall r, In r (reactions cobra_model) ->
         Py.contains "_reverse" (id r) = false -> In (id r) (dict_keys w).
Proof.
  intros Hrun.
  unfold sof_model, bind, lift, print, emit, ret in Hrun.
  destruct (get_sum_of_fluxes cobra_model) as [sum|e]; [|discriminate].
  destruct (get_weightings cobra_model) as [w|e]; [|discriminate].
  destruct (rev2irrev cobra_model) as [irr|e] eqn:Hirr; [|discriminate].
  match type of Hrun with
  | context [for_each ?body (reactions irr) w] =>
      destruct (for_each body (reactions irr) w) as [w'|e] eqn:Hw'; [|discriminate]
  end.
  match type of Hrun with
  | context [for_each ?body (reactions irr) []] =>
      destruct (for_each body (reactions irr) []) as [cs|e] eqn:Hcs; [|discriminate]
  end.
  clear Hrun. exists w. split; [reflexivity|]. intros r Hr Hfree.
  assert (Hin : In (id r) (map id (reactions irr))).
  { apply (rev2irrev_ids_kept _ _ Hirr). now apply in_map. }
  apply in_map_iff in Hin as [y [Hy Hin]].
  destruct (for_each_ok_each _ _ _ _ Hcs y Hin) as [s1 [s2 Hstep]].
  destruct (weight_of w' (id y)) as [x|e] eqn:Hx; simpl in Hstep; [|discriminate].
  apply weight_of_key in Hx. rewrite Hy in Hx.
  destruct (reverse_weights_keys _ _ _ Hw' _ Hx) as [Hk|Hk]; [exact Hk|].
  unfold reverse_suffix in Hk. congruence.
Qed.

Lemma sof_model_needs_weights_witness :
  exists result log' w,
    sof_model (H := Demo.cobra 1) one_phase_reversible "Phloem_tx_overall" 1
              [PGK_c_1] []
    = (Ok result, log')
    /\ get_weightings (H := Demo.cobra 1) one_phase_reversible = Ok w
    /\ In "PGK_c_1" (dict_keys w).
Proof.
  destruct (sof_model (H := Demo.cobra 1) one_phase_reversible "Phloem_tx_overall" 1
                      [PGK_c_1] [])
    as [[result|e] log'] eqn:Hrun.
  - destruct (sof_model_needs_weights (H := Demo.cobra 1) one_phase_reversible
                "Phloem_tx_overall" 1 [PGK_c_1] [] result log' Hrun) as [w [Hw Hall]].
    exists result, log', w. split; [reflexivity|]. split; [exact Hw|].
    apply (Hall PGK_c_1); [simpl; auto | reflexivity].
  - exfalso. vm_compute in Hrun. discriminate.
Defined.

(* ------------------------------------------------------------------ *)
(** ** The plain branch of the run, and the frame built from it *)
(* ------------------------------------------------------------------ *)

Section PlainBranch.
Context `{Cobra}.

Lemma pfba_Weighted_model (model : Model) ws frac objective rs_arg log m sol log1 :
  pfba_Weighted model ws frac objective rs_arg log = (Ok (m, sol), log1) -> m = model.
Proof.
  unfold pfba_Weighted, bind, ret, lift, emit. intros Hrun.
  destruct rs_arg as [l|].
  - destruct (for_each _ l []) as [rs|e]; [|discriminate].
    destruct (add_pfba_Weighted model ws objective frac log) as [[m'|e] l1];
      [|discriminate].
    destruct (slim_optimize m'); [|discriminate].
    now injection Hrun as <- _ _.
  - destruct (add_pfba_Weighted model ws objective frac log) as [[m'|e] l1];
      [|discriminate].
    destruct (slim_optimize m'); [|discriminate].
    now injection Hrun as <- _ _.
Qed.

Lemma get_by_any_listed (model : Model) (l : list Reaction) : forall acc,
  (forall r, In r l -> In (id r) (map id (reactions model))) ->
  exists rs,
    for_each (fun acc i => rbind (get_by_id (reactions model) i)
                                 (fun r => Ok (acc ++ [r]))) (map id l) acc
    = Ok (acc ++ rs)
    /\ map id rs = map id l.
Proof.
  induction l as [|x l IH]; intros acc Hin.
  - exists []. simpl. now rewrite app_nil_r.
  - destruct (find_id_present _ _ (Hin x (or_introl eq_refl))) as [r [Hfind [_ Hid]]].
    destruct (IH (acc ++ [r]) (fun y Hy => Hin y (or_intror Hy))) as [rs [Hrun Hids]].
    exists (r :: rs). simpl. unfold get_by_id at 1. rewrite Hfind. simpl.
    rewrite Hrun, <- app_assoc. simpl. now rewrite Hid, Hids.
Qed.

Lemma resolve_listed (model : Model) (l : list Reaction) :
  (forall r, In r l -> In (id r) (map id (reactions model))) ->
  resolve_reaction_ids model (Some (map id l)) = Ok (map id l).
Proof.
  intros Hin. unfold resolve_reaction_ids, get_by_any.
  destruct (get_by_any_listed model l [] Hin) as [rs [-> Hids]]. simpl.
  now rewrite Hids.
Qed.

Lemma pFBA_FVA_run_plain_run (cobra_model : Model) (obj : string)
    (rxnlist : list Reaction) (p : Z) (log : list Event)
    (m : Model) (sol : Solution) (log1 : list Event) (v value : Q) :
  pfba_Weighted cobra_model None 1 (Some (ObjReaction obj)) None
                (log ++ [Print "Running pFBA"]) = (Ok (m, sol), log1) ->
  weight_of sol obj = Ok v ->
  (forall r, In r rxnlist -> In (id r) (map id (reactions cobra_model))) ->
  slim_optimize cobra_model = Ok value ->
  exists snapshot events,
    reactions snapshot = reactions cobra_model
    /\ pFBA_FVA_run cobra_model obj rxnlist p false log
       = (Ok (set_fva cobra_model
                [("minimum", fva_column snapshot true "min" (map id rxnlist));
                 ("maximum", fva_column snapshot true "max" (map id rxnlist))],
              sol),
          log1
          ++ Print (if Nat.eqb (length rxnlist) 0 then "FVA list is empty"
                    else "Running FVA on " +:+ Py.str (length rxnlist)
                         +:+ " reactions using " +:+ Py.str (Z.to_nat p)
                         +:+ " processes")
          :: Solve "baseline" :: events)
    /\ forall ev, In ev events ->
         exists i, In i (map id rxnlist) /\ (ev = Solve i \/ ev = Print i).
Proof.
  intros Hpfba Hv Hin Hbase.
  assert (Hm := pfba_Weighted_model _ _ _ _ _ _ _ _ _ Hpfba). subst m.
  destruct (flux_variability_analysis_run cobra_model (Some (map id rxnlist)) true 1 p
              (log1 ++ [Print (if Nat.eqb (length rxnlist) 0 then "FVA list is empty"
                               else "Running FVA on " +:+ Py.str (length rxnlist)
                                    +:+ " reactions using " +:+ Py.str (Z.to_nat p)
                                    +:+ " processes")])
              (map id rxnlist) value (resolve_listed _ _ Hin) Hbase)
    as [snapshot [events [Hsnap [_ [Hrun Hev]]]]].
  exists snapshot, events. split; [exact Hsnap|]. split; [|exact Hev].
  unfold pFBA_FVA_run, bind at 1, print at 1, emit at 1.
  unfold bind at 1. rewrite Hpfba.
  unfold bind at 1, lift at 1. rewrite Hv.
  unfold bind at 1.
  destruct (Nat.eqb (length rxnlist) 0); unfold print at 1, emit at 1;
    unfold bind at 1; rewrite Hrun; unfold ret; now rewrite <- app_assoc.
Qed.

Lemma DataFrame_join_empty (sol : Solution) :
  DataFrame_join sol [("minimum", []); ("maximum", [])]
  = map (fun kv => {| row_id := fst kv; fluxes := snd kv;
                      minimum := None; maximum := None |}) sol.
Proof.
  induction sol as [|kv sol IH]; [reflexivity|].
  transitivity ([{| row_id := fst kv; fluxes := snd kv;
                    minimum := None; maximum := None |}]
                ++ DataFrame_join sol [("minimum", []); ("maximum", [])]);
    [reflexivity|].
  now rewrite IH.
Qed.

End PlainBranch.



(** X19.  With the default empty reaction list and without the flux-sum
    option, once the weighted pFBA stage has returned, the objective reaction
    has a flux and the baseline is solvable, [get_pfba_fva_solution] returns
    for every process count: the analysis table is empty, the combined frame
    has one row per reaction of the pFBA solution, in its order, each with a
    missing minimum and maximum, and the log ends with "FVA list is empty",
    the baseline solve and the closing notice. *)
Theorem get_pfba_fva_solution_empty_list `{Cobra} (fba_model : Model)
    (objective : string) (p : Z) (log : list Event)
    (m : Model) (sol : Solution) (log1 : list Event) (v value : Q) :
  pfba_Weighted fba_model None 1 (Some (ObjReaction objective)) None
    ((log ++ [Print ("Started running pFBA (and FVA) @ " +:+ clock_text 0)])
     ++ [Print "Running pFBA"])
  = (Ok (m, sol), log1) ->
  weight_of sol objective = Ok v ->
  slim_optimize fba_model = Ok value ->
  get_pfba_fva_solution fba_model [] objective p false log
  = (Ok (set_fva fba_model [("minimum", []); ("maximum", [])],
         map (fun kv => {| row_id := fst kv; fluxes := snd kv;
                           minimum := None; maximum := None |}) sol),
     log1 ++ [Print "FVA list is empty"; Solve "baseline";
              Print ("Finished running pFBA (and FVA) @ " +:+ clock_text 1
                     +:+ ", that took " +:+ clock_text 2 +:+ " minutes")]).
Proof.
  intros Hpfba Hv Hbase.
  destruct (pFBA_FVA_run_plain_run fba_model objective [] p _ m sol log1 v value
              Hpfba Hv (fun r (Hr : In r []) => match Hr with end) Hbase)
    as [snapshot [events [_ [Hrun Hev]]]].
  assert (Hnone : events = []).
  { destruct events as [|ev events]; [reflexivity|].
    destruct (Hev ev (or_introl eq_refl)) as [i [[] _]]. }
  subst events.
  unfold get_pfba_fva_solution, bind at 1, print at 1, emit at 1.
  unfold bind at 1. rewrite Hrun.
  unfold bind at 1, print at 1, emit at 1.
  unfold bind at 1. cbn [fva set_fva]. unfold ret.
  rewrite DataFrame_join_empty. cbn [map fva_column length Nat.eqb].
  now rewrite <- app_assoc.
Qed.

Lemma get_pfba_fva_solution_empty_list_witness :
  exists log1,
    get_pfba_fva_solution (H := Demo.cobra 1) one_phase_reversible []
      "Phloem_tx_overall" 3 false []
    = (Ok (set_fva one_phase_reversible [("minimum", []); ("maximum", [])],
           map (fun kv => {| row_id := fst kv; fluxes := snd kv;
                             minimum := None; maximum := None |})
               [("SUCROSE_v_gc_Linker_1", 1%Q); ("PGK_c_1", 1%Q);
                ("Phloem_tx_overall", 1%Q)]),
       log1 ++ [Print "FVA list is empty"; Solve "baseline";
                Print ("Finished running pFBA (and FVA) @ " +:+ "t"
                       +:+ ", that took " +:+ "t" +:+ " minutes")]).
Proof.
  destruct (pfba_Weighted (H := Demo.cobra 1) one_phase_reversible None 1
              (Some (ObjReaction "Phloem_tx_overall")) None
              (([] ++ [Print ("Started running pFBA (and FVA) @ "
                              +:+ clock_text (Cobra := Demo.cobra 1) 0)])
               ++ [Print "Running pFBA"]))
    as [[[m sol]|e] log1] eqn:Hpfba.
  - assert (Hsol : sol = [("SUCROSE_v_gc_Linker_1", 1%Q); ("PGK_c_1", 1%Q);
                          ("Phloem_tx_overall", 1%Q)]).
    { vm_compute in Hpfba. now injection Hpfba as _ <- _. }
    subst sol. exists log1.
    exact (get_pfba_fva_solution_empty_list (H := Demo.cobra 1) one_phase_reversible
             "Phloem_tx_overall" 3 [] m _ log1 1%Q 1%Q Hpfba eq_refl eq_refl).
  - exfalso. vm_compute in Hpfba. discriminate.
Defined.
